(** * Hub orchestrator dispatch, credential broker and chat frontend

    A shallow embedding of the three pieces of executable logic of the
    platform:

    - [Hub]: the Python functions [get_cross_account_bedrock_client] and
      [invoke_bedrock_agent] of the hub orchestrator;
    - [UploadUrl]: the [POST] handler of [app/api/upload-url/route.ts];
    - [Frontend]: the [handleFileUpload] handler of [app/page.tsx].

    AWS, the network and the presigner are outside the program: they are
    modelled as oracles whose answers may depend on everything that has
    happened so far, and every call the program makes on them is recorded
    in a trace. *)

From Stdlib Require Import Strings.Byte.
From stdpp Require Import base strings pretty gmap list.

Local Open Scope string_scope.
Local Open Scope list_scope.

(** ** Python strings and bytes

    A Python [bytes] value is a [list byte].  A Python [str] is represented
    by its UTF-8 encoding, held in a Rocq [string]: concatenation and
    emptiness of [str] values are concatenation and emptiness of their
    encodings. *)

Module Utf8.

Definition between (lo hi b : N) : bool := ((lo <=? b) && (b <=? hi))%N.

(** Continuation byte [10xxxxxx]. *)
Definition cont (b : N) : bool := between 0x80 0xBF b.

(** The well-formed byte sequences accepted by [bytes.decode("utf-8")]
    in strict mode: no overlong forms, no surrogates, nothing above
    U+10FFFF. *)
Fixpoint well_formed (bs : list N) : bool :=
  match bs with
  | [] => true
  | b0 :: r0 =>
    if (b0 <=? 0x7F)%N then well_formed r0
    else if between 0xC2 0xDF b0 then
      match r0 with
      | b1 :: r1 => cont b1 && well_formed r1
      | _ => false
      end
    else if between 0xE0 0xEF b0 then
      match r0 with
      | b1 :: b2 :: r2 =>
        (if (b0 =? 0xE0)%N then between 0xA0 0xBF b1
         else if (b0 =? 0xED)%N then between 0x80 0x9F b1
         else cont b1)
        && cont b2 && well_formed r2
      | _ => false
      end
    else if between 0xF0 0xF4 b0 then
      match r0 with
      | b1 :: b2 :: b3 :: r3 =>
        (if (b0 =? 0xF0)%N then between 0x90 0xBF b1
         else if (b0 =? 0xF4)%N then between 0x80 0x8F b1
         else cont b1)
        && cont b2 && cont b3 && well_formed r3
      | _ => false
      end
    else false
  end.

(** [bs.decode("utf-8")]: the text, or [None] where Python raises
    [UnicodeDecodeError]. *)
Definition decode (bs : list byte) : option string :=
  if well_formed (map Byte.to_N bs) then Some (String.string_of_list_byte bs)
  else None.

(** [s.encode("utf-8")] of a literal. *)
Definition encode (s : string) : list byte := String.list_byte_of_string s.

End Utf8.

Module Hub.

(** ** Values exchanged with AWS *)

Record Credentials := mkCredentials {
  AccessKeyId : string;
  SecretAccessKey : string;
  SessionToken : string
}.

(** Where a client takes its credentials from: the process-wide default
    chain, or the keys a [boto3.Session] was built with. *)
Inductive CredSource :=
| Ambient
| Explicit (creds : Credentials).

Record Session := mkSession {
  session_obj : nat;
  session_creds : CredSource;
  session_region : string
}.

(** A client object; [client_obj] is its identity. *)
Record Client := mkClient {
  client_obj : nat;
  client_service : string;
  client_region : string;
  client_creds : CredSource
}.

Record AssumeRoleRequest := mkAssumeRoleRequest {
  RoleArn : string;
  RoleSessionName : string;
  ExternalId : string
}.

Record InvokeAgentRequest := mkInvokeAgentRequest {
  agentId : option string;
  agentAliasId : option string;
  sessionId : string;
  inputText : string
}.

(** One event of the [completion] stream: [event["chunk"]["bytes"]],
    where either key may be missing. *)
Record Chunk := mkChunk { chunk_bytes : option (list byte) }.
Record Event := mkEvent { event_chunk : option Chunk }.

Record InvokeAgentResponse := mkInvokeAgentResponse {
  completion : option (list Event)
}.

Record BotoError := mkBotoError { error_code : string; error_message : string }.

(** ** Exceptions, outcomes and the trace of external calls *)

Inductive exn :=
| BotocoreError (e : BotoError)           (* raised inside a boto3 call *)
| Exception (msg : string)                (* [raise Exception(msg)] *)
| UnicodeDecodeError (object : list byte) (* [bytes.decode] *).

Inductive Outcome (A : Type) :=
| Returned (a : A)
| Raised (e : exn).
Arguments Returned {A} a.
Arguments Raised {A} e.

Inductive Call :=
| Print (line : string)
| Boto3Client (c : Client)                  (* [boto3.client(...)] *)
| Boto3Session (s : Session)                (* [boto3.Session(...)] *)
| SessionClient (s : Session) (c : Client)  (* [session.client(...)] *)
| AssumeRole (via : Client) (req : AssumeRoleRequest)
| GetCallerIdentity (via : Client)
| InvokeAgent (via : Client) (req : InvokeAgentRequest).

(** The interpreter state: what has happened so far, in order, and the
    next unused object identity. *)
Record World := mkWorld {
  trace : list Call;
  next_obj : nat
}.

(** AWS as seen by the program.  Each answer may depend on the whole
    history, so two identical requests need not get the same reply. *)
Record AWS := mkAWS {
  sts_assume_role :
    list Call → Client → AssumeRoleRequest → BotoError + Credentials;
  sts_get_caller_identity :
    list Call → Client → BotoError + string;
  bedrock_invoke_agent :
    list Call → Client → InvokeAgentRequest → BotoError + InvokeAgentResponse
}.

(** ** The monad of Python code: state and exceptions *)

Definition Py (A : Type) : Type := World → Outcome A * World.

Definition ret {A} (a : A) : Py A := λ w, (Returned a, w).

Definition raise {A} (e : exn) : Py A := λ w, (Raised e, w).

Definition bind {A B} (m : Py A) (k : A → Py B) : Py B :=
  λ w, match m w with
       | (Returned a, w') => k a w'
       | (Raised e, w') => (Raised e, w')
       end.

Declare Scope py_scope.
Delimit Scope py_scope with py.
Notation "'let*' x ':=' m 'in' k" := (bind m (λ x, k))
  (at level 10, x name, m at level 100, k at level 200) : py_scope.
Notation "m ;;; k" := (bind m (λ _, k))
  (at level 100, k at level 200, right associativity) : py_scope.
Local Open Scope py_scope.

Definition log_call (c : Call) : Py unit :=
  λ w, (Returned tt, mkWorld (trace w ++ [c]) (next_obj w)).

Definition fresh : Py nat :=
  λ w, (Returned (next_obj w), mkWorld (trace w) (S (next_obj w))).

Definition history : Py (list Call) := λ w, (Returned (trace w), w).

Definition lift_boto {A} (r : BotoError + A) : Py A :=
  match r with
  | inl e => raise (BotocoreError e)
  | inr a => ret a
  end.

Definition print (line : string) : Py unit := log_call (Print line).

(** Truthiness of an optional string: [None] and [""] are false. *)
Definition truthy (v : option string) : bool :=
  match v with
  | None | Some "" => false
  | Some _ => true
  end.

(** [f"{v}"] for an optional string. *)
Definition fmt (v : option string) : string :=
  match v with
  | None => "None"
  | Some s => s
  end.

Section Program.

Variable aws : AWS.
Variable environ : gmap string string.

(** ** Configuration constants *)

Definition REGION : string := default "us-east-1" (environ !! "AWS_REGION").
Definition LOCAL_ACCOUNT_ID : string := "843074507558".
Definition CROSS_ACCOUNT_ROLE_ARN : string :=
  "arn:aws:iam::152864141302:role/cmcCrossAccountBedrockInvokeRole".
Definition CROSS_ACCOUNT_EXTERNAL_ID : string := "bedrock-cross-account-2024".

(** ** boto3 *)

Definition boto3_client (service : string) (region : string) : Py Client :=
  let* i := fresh in
  let c := mkClient i service region Ambient in
  log_call (Boto3Client c) ;;;
  ret c.

Definition boto3_Session (creds : Credentials) (region : string) : Py Session :=
  let* i := fresh in
  let s := mkSession i (Explicit creds) region in
  log_call (Boto3Session s) ;;;
  ret s.

Definition session_client (s : Session) (service : string) : Py Client :=
  let* i := fresh in
  let c := mkClient i service (session_region s) (session_creds s) in
  log_call (SessionClient s c) ;;;
  ret c.

Definition assume_role (sts : Client) (req : AssumeRoleRequest) : Py Credentials :=
  let* h := history in
  log_call (AssumeRole sts req) ;;;
  lift_boto (sts_assume_role aws h sts req).

Definition get_caller_identity (sts : Client) : Py string :=
  let* h := history in
  log_call (GetCallerIdentity sts) ;;;
  lift_boto (sts_get_caller_identity aws h sts).

Definition invoke_agent (bedrock : Client) (req : InvokeAgentRequest)
  : Py InvokeAgentResponse :=
  let* h := history in
  log_call (InvokeAgent bedrock req) ;;;
  lift_boto (bedrock_invoke_agent aws h bedrock req).

(** The module-level [bedrock_client = boto3.client(...)]. *)
Definition load_module : Py Client :=
  boto3_client "bedrock-agent-runtime" REGION.

(** ** Credential broker *)

Definition assume_role_request (account_id : string) : AssumeRoleRequest :=
  mkAssumeRoleRequest CROSS_ACCOUNT_ROLE_ARN
                      ("HubSession-" +:+ account_id)
                      CROSS_ACCOUNT_EXTERNAL_ID.

Definition get_cross_account_bedrock_client (account_id : string) : Py Client :=
  print ("[Hub] Assuming role for " +:+ account_id +:+ "...") ;;;
  let* sts := boto3_client "sts" REGION in
  let* creds := assume_role sts (assume_role_request account_id) in
  let* session := boto3_Session creds REGION in
  let* sts' := session_client session "sts" in
  let* identity := get_caller_identity sts' in
  print ("[Hub] ✅ Identity: Account=" +:+ identity) ;;;
  if negb (String.eqb identity account_id) then
    raise (Exception ("Expected account " +:+ account_id +:+ ", got " +:+ identity))
  else
    session_client session "bedrock-agent-runtime".

(** ** Dispatcher *)

(** The body of the [for event in ...] loop, folded over the stream;
    [result] is the accumulator. *)
Fixpoint process_stream (events : list Event) (result : string) : Outcome string :=
  match events with
  | [] => Returned result
  | event :: rest =>
    match event_chunk event with
    | Some (mkChunk (Some bs)) =>
      match Utf8.decode bs with
      | Some text => process_stream rest (result +:+ text)
      | None => Raised (UnicodeDecodeError bs)
      end
    | _ => process_stream rest result
    end
  end.

Definition lift_outcome {A} (o : Outcome A) : Py A := λ w, (o, w).

Definition NO_RESPONSE : string := "No response from agent.".

(** "Process streaming response": the loop and the final
    [return result if result else "No response from agent."]. *)
Definition assemble_response (response : InvokeAgentResponse) : Outcome string :=
  match process_stream (default [] (completion response)) "" with
  | Returned result =>
    Returned (if negb (String.eqb result "") then result else NO_RESPONSE)
  | Raised e => Raised e
  end.

(** "Choose client based on account": the [if]/[else] that binds
    [bedrock]. *)
Definition choose_client (bedrock_client : Client) (account_id : option string)
  : Py Client :=
  if truthy account_id && negb (String.eqb (fmt account_id) LOCAL_ACCOUNT_ID) then
    print ("[Hub] Using cross-account client for " +:+ fmt account_id) ;;;
    get_cross_account_bedrock_client (fmt account_id)
  else
    print "[Hub] Using local client" ;;;
    ret bedrock_client.

Definition invoke_bedrock_agent (bedrock_client : Client)
    (agent : gmap string string) (user_request session_id : string) : Py string :=
  let agent_id := agent !! "agent_id" in
  let alias_id := agent !! "alias_id" in
  let account_id := agent !! "account_id" in
  if negb (truthy alias_id) then
    ret ("Error: Missing alias_id for agent " +:+ fmt agent_id)
  else
    let* bedrock := choose_client bedrock_client account_id in
    let* response := invoke_agent bedrock
                 (mkInvokeAgentRequest agent_id alias_id session_id user_request) in
    lift_outcome (assemble_response response).

(** ** The points of one run of the broker, started in world [w] *)

Definition broker_sts (w : World) : Client :=
  mkClient (next_obj w) "sts" REGION Ambient.

Definition before_assume (account_id : string) (w : World) : list Call :=
  trace w ++ [Print ("[Hub] Assuming role for " +:+ account_id +:+ "...");
              Boto3Client (broker_sts w)].

Definition broker_session (w : World) (creds : Credentials) : Session :=
  mkSession (S (next_obj w)) (Explicit creds) REGION.

Definition verifier (w : World) (creds : Credentials) : Client :=
  mkClient (S (S (next_obj w))) "sts" REGION (Explicit creds).

Definition before_identity (account_id : string) (w : World) (creds : Credentials)
  : list Call :=
  before_assume account_id w ++
  [AssumeRole (broker_sts w) (assume_role_request account_id);
   Boto3Session (broker_session w creds);
   SessionClient (broker_session w creds) (verifier w creds)].

Definition isolated_client (w : World) (creds : Credentials) : Client :=
  mkClient (S (S (S (next_obj w)))) "bedrock-agent-runtime" REGION (Explicit creds).

End Program.

(** ** Reading a trace *)

Definition is_assume_role (c : Call) : bool :=
  match c with AssumeRole _ _ => true | _ => false end.

(** How many role assumptions a trace holds. *)
Definition assume_role_calls (tr : list Call) : nat :=
  length (List.filter is_assume_role tr).

(** The agent invocations of a trace, in order, each with the client
    object it was made on. *)
Fixpoint invocations (tr : list Call) : list (Client * InvokeAgentRequest) :=
  match tr with
  | [] => []
  | InvokeAgent via req :: rest => (via, req) :: invocations rest
  | _ :: rest => invocations rest
  end.

(** The role-assumption requests of a trace, in order. *)
Fixpoint assume_role_requests (tr : list Call) : list AssumeRoleRequest :=
  match tr with
  | [] => []
  | AssumeRole _ req :: rest => req :: assume_role_requests rest
  | _ :: rest => assume_role_requests rest
  end.

(** The request a dispatch for [agent] sends to the agent runtime. *)
Definition request_of (agent : gmap string string) (user_request session_id : string)
  : InvokeAgentRequest :=
  mkInvokeAgentRequest (agent !! "agent_id") (agent !! "alias_id")
                       session_id user_request.

(** ** Reading a stream *)

(** The byte fragments of the events that carry one, in arrival order. *)
Definition fragments (events : list Event) : list (list byte) :=
  omap (λ event, chunk ← event_chunk event; chunk_bytes chunk) events.

(** Concatenation of texts, first to last. *)
Definition join (texts : list string) : string := foldr String.append "" texts.

End Hub.


(** ** The upload-url route *)

Module UploadUrl.

(** A template literal's rendering of a value that may be [undefined]. *)
Definition template (v : option string) : string :=
  match v with
  | None => "undefined"
  | Some s => s
  end.

Record S3ClientConfig := mkS3ClientConfig {
  region : option string;
  accessKeyId : option string;
  secretAccessKey : option string
}.

Record PutObjectCommand := mkPutObjectCommand {
  Bucket : option string;
  Key : string;
  ContentType : option string
}.

(** [getSignedUrl(client, command, { expiresIn })] of the AWS SDK: the
    signed URL, or the error it throws. *)
Definition Presigner : Type :=
  S3ClientConfig → PutObjectCommand → nat → string + string.

(** The parsed request body: [request.json()] throws on a malformed
    body; a field that is missing is [undefined]. *)
Inductive RequestBody :=
| Malformed (error : string)
| Body (filename contentType : option string).

Inductive Reply :=
| Json (uploadUrl s3Path : string)   (* [NextResponse.json({ uploadUrl, s3Path })] *)
| Throws (error : string).

Section Route.

Variable env : gmap string string.      (* [process.env] *)
Variable getSignedUrl : Presigner.

Definition s3Client : S3ClientConfig :=
  mkS3ClientConfig (env !! "AWS_REGION") (env !! "AWS_ACCESS_KEY_ID")
                   (env !! "AWS_SECRET_ACCESS_KEY").

Definition POST (request : RequestBody) : Reply :=
  match request with
  | Malformed error => Throws error
  | Body filename contentType =>
    let key := "sourceDocs/" +:+ template filename in
    let command := mkPutObjectCommand (env !! "S3_BUCKET_NAME") key contentType in
    match getSignedUrl s3Client command 1500 with
    | inl error => Throws error
    | inr uploadUrl =>
      Json uploadUrl ("s3://" +:+ template (env !! "S3_BUCKET_NAME") +:+ "/" +:+ key)
    end
  end.

End Route.

End UploadUrl.

(** ** The chat page: document upload *)

Module Frontend.

Record Message := mkMessage { role : string; content : string }.

Record File := mkFile { file_name : string; file_type : string }.

(** A value that was thrown: an [Error] object (with its [name] and
    [message]) or something that is not an [Error]. *)
Inductive Thrown :=
| ErrorObject (name message : string)
| NotAnError.

Inductive RequestPayload :=
| JsonPayload (fields : list (string * string))   (* [JSON.stringify({...})] *)
| FilePayload (file : File).

Record Request := mkRequest {
  url : string;
  method : string;
  headers : list (string * string);
  payload : RequestPayload;
  signal : bool      (* whether the abort signal is attached *)
}.

(** A response: [json] is the parse of the body as an object of string
    fields, or [None] when [res.json()] throws. *)
Record Response := mkResponse {
  status : nat;
  text : string;
  json : option (gmap string string)
}.

Definition ok (res : Response) : bool :=
  (200 <=? status res)%nat && (status res <=? 299)%nat.

(** How a [fetch] settles, and how many milliseconds after it was
    started; [Never] is a request that stays in flight. *)
Inductive Settle :=
| Resolves (after_ms : N) (res : Response)
| Rejects (after_ms : N) (error : Thrown)
| Never.

Inductive Effect :=
| Fetch (req : Request)
| SetTimeout (ms : N)
| ClearTimeout
| Abort.                (* [controller.abort()] run by the timer *)

Record UI := mkUI {
  messages : list Message;
  loading : bool;
  uploading : bool;
  fileInput : option string   (* [fileInputRef.current?.value] *)
}.

Record Store := mkStore { ui : UI; effects : list Effect }.

(** How a block of the handler completes.  [Pending] is an [await] that
    never resumes. *)
Inductive Completion (A : Type) :=
| Normal (a : A)
| Throw (e : Thrown)
| Return
| Pending.
Arguments Normal {A} a.
Arguments Throw {A} e.
Arguments Return {A}.
Arguments Pending {A}.

Definition Js (A : Type) : Type := Store → Completion A * Store.

Definition pure {A} (a : A) : Js A := λ st, (Normal a, st).
Definition throw {A} (e : Thrown) : Js A := λ st, (Throw e, st).
Definition return_ {A} : Js A := λ st, (Return, st).

Definition seq {A B} (m : Js A) (k : A → Js B) : Js B :=
  λ st, match m st with
        | (Normal a, st') => k a st'
        | (Throw e, st') => (Throw e, st')
        | (Return, st') => (Return, st')
        | (Pending, st') => (Pending, st')
        end.

Declare Scope js_scope.
Delimit Scope js_scope with js.
Notation "'let!' x ':=' m 'in' k" := (seq m (λ x, k))
  (at level 10, x name, m at level 100, k at level 200) : js_scope.
Notation "m ';;!' k" := (seq m (λ _, k))
  (at level 100, k at level 200, right associativity) : js_scope.
Local Open Scope js_scope.

(** [try { body } catch (e) { handler }]. *)
Definition try_catch {A} (body : Js A) (handler : Thrown → Js A) : Js A :=
  λ st, match body st with
        | (Throw e, st') => handler e st'
        | r => r
        end.

(** [try { body } finally { cleanup }], for a [cleanup] that completes
    normally: it runs unless [body] never completes. *)
Definition try_finally {A} (body : Js A) (cleanup : Js unit) : Js A :=
  λ st, match body st with
        | (Pending, st') => (Pending, st')
        | (c, st') =>
          match cleanup st' with
          | (Normal _, st'') => (c, st'')
          | (Throw e, st'') => (Throw e, st'')
          | (Return, st'') => (Return, st'')
          | (Pending, st'') => (Pending, st'')
          end
        end.

Definition effect (e : Effect) : Js unit :=
  λ st, (Normal tt, mkStore (ui st) (effects st ++ [e])).

Definition update (f : UI → UI) : Js unit :=
  λ st, (Normal tt, mkStore (f (ui st)) (effects st)).

Definition setMessages (m : Message) : Js unit :=
  update (λ u, mkUI (messages u ++ [m]) (loading u) (uploading u) (fileInput u)).
Definition setLoading (b : bool) : Js unit :=
  update (λ u, mkUI (messages u) b (uploading u) (fileInput u)).
Definition setUploading (b : bool) : Js unit :=
  update (λ u, mkUI (messages u) (loading u) b (fileInput u)).
Definition clearFileInput : Js unit :=
  update (λ u, mkUI (messages u) (loading u) (uploading u)
                    (match fileInput u with Some _ => Some "" | None => None end)).

(** Truthiness of a string field: missing and empty are false. *)
Definition truthy (v : option string) : bool :=
  match v with
  | None | Some "" => false
  | Some _ => true
  end.

(** [a || b || fallback] on string fields. *)
Definition or_else (a b : option string) (fallback : string) : string :=
  if truthy a then UploadUrl.template a
  else if truthy b then UploadUrl.template b
  else fallback.

Definition TIMEOUT_MS : N := 120000.

Definition STILL_PROCESSING : string :=
  "⏳ Document uploaded successfully! Processing is taking longer than expected. The document is being processed in the background - please try asking about it in a moment, or check CloudWatch logs for the result.".

Definition TIMED_OUT : string :=
  "Request timed out - document processing is taking too long".

Section Page.

(** The network: how each request settles, given everything the page
    did before. *)
Variable network : list Effect → Request → Settle.
Variable env : gmap string string.      (* [process.env] *)
Variable sessionId : string.

(** [await fetch(req)] with no abort signal. *)
Definition fetch (req : Request) : Js Response :=
  λ st,
    let st' := mkStore (ui st) (effects st ++ [Fetch req]) in
    match network (effects st) req with
    | Resolves _ res => (Normal res, st')
    | Rejects _ error => (Throw error, st')
    | Never => (Pending, st')
    end.

(** [await fetch(req)] with the signal of a controller that a timer
    aborts after [ms] milliseconds: a request that has not settled
    before the timer fires is aborted and rejects with an
    [AbortError]. *)
Definition fetch_with_deadline (ms : N) (req : Request) : Js Response :=
  λ st,
    let st' := mkStore (ui st) (effects st ++ [Fetch req]) in
    let aborted := (Throw (ErrorObject "AbortError" "The user aborted a request."),
                    mkStore (ui st) (effects st ++ [Fetch req; Abort])) in
    match network (effects st) req with
    | Resolves t res => if (t <? ms)%N then (Normal res, st') else aborted
    | Rejects t error => if (t <? ms)%N then (Throw error, st') else aborted
    | Never => aborted
    end.

Definition res_json (res : Response) : Js (gmap string string) :=
  match json res with
  | Some data => pure data
  | None => throw (ErrorObject "SyntaxError" "Unexpected token")
  end.

Definition hub_request (s3Path : option string) : Request :=
  mkRequest (UploadUrl.template (env !! "NEXT_PUBLIC_API_URL")) "POST"
    [("Content-Type", "application/json");
     ("x-api-key", UploadUrl.template (env !! "NEXT_PUBLIC_API_KEY"))]
    (JsonPayload
       [("prompt", "Extract data from this S3 URI (" +:+ UploadUrl.template s3Path +:+ ")");
        ("session_id", sessionId)])
    true.

(** The inner [try]/[catch] around the hub call. *)
Definition call_hub (s3Path : option string) : Js unit :=
  effect (SetTimeout TIMEOUT_MS) ;;!
  try_catch
    (let! hubRes := fetch_with_deadline TIMEOUT_MS (hub_request s3Path) in
     effect ClearTimeout ;;!
     if negb (ok hubRes) then
       if (status hubRes =? 504)%nat then
         setMessages (mkMessage "assistant" STILL_PROCESSING) ;;!
         return_
       else
         throw (ErrorObject "Error"
                  ("API error: " +:+ pretty (status hubRes) +:+ " - " +:+ text hubRes))
     else
       let! data := res_json hubRes in
       setMessages (mkMessage "assistant"
         (or_else (data !! "response") (data !! "error")
                  "Processing complete but no response data")))
    (λ fetchError,
       effect ClearTimeout ;;!
       match fetchError with
       | ErrorObject "AbortError" _ => throw (ErrorObject "Error" TIMED_OUT)
       | _ => throw fetchError
       end).

Definition upload_url_request (file : File) : Request :=
  mkRequest "/api/upload-url" "POST"
    [("Content-Type", "application/json")]
    (JsonPayload [("filename", file_name file); ("contentType", file_type file)])
    false.

Definition put_request (file : File) (uploadUrl : option string) : Request :=
  mkRequest (UploadUrl.template uploadUrl) "PUT"
    [("Content-Type", file_type file)]
    (FilePayload file)
    false.

Definition handleFileUpload (file : option File) : Js unit :=
  match file with
  | None => return_
  | Some file =>
    setUploading true ;;!
    setMessages (mkMessage "user" ("📎 " +:+ file_name file)) ;;!
    try_finally
      (try_catch
         (let! res := fetch (upload_url_request file) in
          if negb (ok res) then throw (ErrorObject "Error" "Failed to get upload URL")
          else
            let! urls := res_json res in
            let! uploadRes := fetch (put_request file (urls !! "uploadUrl")) in
            if negb (ok uploadRes) then
              throw (ErrorObject "Error" "Failed to upload file to S3")
            else
              setLoading true ;;!
              call_hub (urls !! "s3Path"))
         (λ err,
            setMessages (mkMessage "error"
              (match err with
               | ErrorObject _ message => message
               | NotAnError => "Upload failed"
               end))))
      (setUploading false ;;! setLoading false ;;! clearFileInput)
  end.

(** A hub request that is still in flight when the timer fires. *)
Definition misses_deadline (s : Settle) : Prop :=
  match s with
  | Resolves t _ | Rejects t _ => (TIMEOUT_MS ≤ t)%N
  | Never => True
  end.

End Page.

End Frontend.

(** ** Concrete scenarios *)

Module Scenario.
Import Hub.

Definition target_creds : Credentials :=
  mkCredentials "ASIATARGET" "secret" "token".

Definition stream (chunks : list string) : InvokeAgentResponse :=
  mkInvokeAgentResponse
    (Some (map (λ s, mkEvent (Some (mkChunk (Some (Utf8.encode s))))) chunks)).

Definition aws_of (identity : CredSource → string) (reply : InvokeAgentResponse) : AWS :=
  mkAWS (λ _ _ _, inr target_creds)
        (λ _ c, inr (identity (client_creds c)))
        (λ _ _ _, inr reply).

Definition isolated (src : CredSource) : string :=
  match src with
  | Ambient => "843074507558"
  | Explicit _ => "152864141302"
  end.

(** The deployed setting: credentials are isolated per session and the
    agent streams three fragments. *)
Definition aws0 : AWS := aws_of isolated (stream ["Hel"; "lo, "; "world"]).

Definition vessel_agent : gmap string string :=
  {[ "agent_id" := "PEGHWIVI5Y"; "alias_id" := "IO1GTTHP0M";
     "account_id" := "152864141302" ]}.

Definition w0 : World := mkWorld [] 0.
Definition local_client : Client := mkClient 0 "bedrock-agent-runtime" "us-east-1" Ambient.
Definition w1 : World := mkWorld [Boto3Client local_client] 1.

(** The same record with the alias blanked, and with the account removed. *)
Definition no_alias_agent : gmap string string := <["alias_id" := ""]> vessel_agent.
Definition local_agent : gmap string string := delete "account_id" vessel_agent.

(** An STS whose credentials leak: the new session still resolves to the
    local account. *)
Definition leaking (_ : CredSource) : string := "843074507558".

(** The world in which the dispatcher calls the broker for the vessel
    agent, and the isolated client the broker returns there. *)
Definition w2 : World :=
  mkWorld [Boto3Client local_client;
           Print "[Hub] Using cross-account client for 152864141302"] 1.
Definition vessel_client : Client :=
  mkClient 4 "bedrock-agent-runtime" "us-east-1" (Explicit target_creds).

(** The world in which the dispatcher invokes a local agent. *)
Definition w3 : World :=
  mkWorld [Boto3Client local_client; Print "[Hub] Using local client"] 1.

(** A stream whose second fragment is a lone continuation byte. *)
Definition broken_stream : InvokeAgentResponse :=
  mkInvokeAgentResponse
    (Some [mkEvent (Some (mkChunk (Some (Utf8.encode "Hel"))));
           mkEvent (Some (mkChunk (Some [Byte.x80])));
           mkEvent (Some (mkChunk (Some (Utf8.encode "world"))))]).

(** The upload-url route behind a presigner that writes the method, the
    object and the lifetime into the URL. *)
Definition env0 : gmap string string :=
  {[ "S3_BUCKET_NAME" := "cmc-docs"; "AWS_REGION" := "us-east-1";
     "NEXT_PUBLIC_API_URL" := "https://hub.example/chat";
     "NEXT_PUBLIC_API_KEY" := "k" ]}.

Definition presigner0 : UploadUrl.Presigner :=
  λ _ command expiresIn,
    inr ("PUT https://" +:+ UploadUrl.template (UploadUrl.Bucket command) +:+ "/" +:+
         UploadUrl.Key command +:+ "?X-Amz-Expires=" +:+ pretty expiresIn).

(** The chat page: a network on which the upload succeeds and the hub
    answers as given. *)
Import Frontend.

Definition report : File := mkFile "report.pdf" "application/pdf".

Definition network_of (hub : Settle) : list Effect → Request → Settle :=
  λ _ req,
    if String.eqb (url req) "/api/upload-url" then
      Resolves 40 (mkResponse 200 ""
        (Some {[ "uploadUrl" := "https://cmc-docs/put";
                 "s3Path" := "s3://cmc-docs/sourceDocs/report.pdf" ]}))
    else if String.eqb (method req) "PUT" then
      Resolves 900 (mkResponse 200 "" None)
    else hub.

Definition idle : Store := mkStore (mkUI [] false false (Some "report.pdf")) [].
End Scenario.

(** ** Upload turns as the network shapes them *)

Module Turn.
Import Frontend.

(** The message that opens an upload turn. *)
Definition attachment (file : File) : Message :=
  mkMessage "user" ("📎 " +:+ file_name file).

(** What the outer [catch] shows for a thrown value. *)
Definition shown (err : Thrown) : string :=
  match err with
  | ErrorObject _ message => message
  | NotAnError => "Upload failed"
  end.

(** The file input after the [finally] block. *)
Definition cleared (input : option string) : option string :=
  match input with Some _ => Some "" | None => None end.

(** What a run added to the effects of the store it started from. *)
Definition added (before after : Store) : list Effect :=
  drop (length (effects before)) (effects after).

Section Network.

Variable network : list Effect → Request → Settle.

(** One of the two requests that carry no abort signal never settles. *)
Definition upload_stalls (file : File) (st : Store) : Prop :=
  network (effects st) (upload_url_request file) = Never ∨
  ∃ t res urls,
    network (effects st) (upload_url_request file) = Resolves t res ∧
    ok res = true ∧ json res = Some urls ∧
    network (effects st ++ [Fetch (upload_url_request file)])
            (put_request file (urls !! "uploadUrl")) = Never.

(** The upload URL was issued, with [urls] as its JSON body, and the PUT to
    it was accepted. *)
Definition upload_succeeds (file : File) (st : Store) (urls : gmap string string) : Prop :=
  ∃ t1 res t2 uploadRes,
    network (effects st) (upload_url_request file) = Resolves t1 res ∧
    ok res = true ∧ json res = Some urls ∧
    network (effects st ++ [Fetch (upload_url_request file)])
            (put_request file (urls !! "uploadUrl")) = Resolves t2 uploadRes ∧
    ok uploadRes = true.

(** The store in which the hub call of a successful upload starts. *)
Definition uploaded (file : File) (st : Store) (urls : gmap string string) : Store :=
  mkStore (mkUI (messages (ui st) ++ [attachment file]) true true (fileInput (ui st)))
          (effects st ++ [Fetch (upload_url_request file);
                          Fetch (put_request file (urls !! "uploadUrl"))]).

End Network.

End Turn.

(** ** Further scenarios *)

Module MoreScenarios.
Import Hub Scenario Frontend.

(** An STS that assumes the role but refuses the identity check. *)
Definition aws_expired : AWS :=
  mkAWS (λ _ _ _, inr target_creds)
        (λ _ _, inl (mkBotoError "ExpiredToken" "The security token is expired"))
        (λ _ _ _, inr (stream [])).

(** An agent runtime that does not know the agent. *)
Definition aws_not_found : AWS :=
  mkAWS (λ _ _ _, inr target_creds)
        (λ _ c, inr (isolated (client_creds c)))
        (λ _ _ _, inl (mkBotoError "ResourceNotFoundException" "Agent not found")).

(** The three fragments of the deployed stream, with a trace event and a
    chunk without bytes in between. *)
Definition noisy_stream : InvokeAgentResponse :=
  mkInvokeAgentResponse
    (Some [mkEvent (Some (mkChunk (Some (Utf8.encode "Hel"))));
           mkEvent None;
           mkEvent (Some (mkChunk (Some (Utf8.encode "lo, "))));
           mkEvent (Some (mkChunk None));
           mkEvent (Some (mkChunk (Some (Utf8.encode "world"))))]).

(** The world the first of two dispatches for the vessel agent leaves. *)
Definition w4 : World :=
  (invoke_bedrock_agent aws0 ∅ local_client vessel_agent "hi" "s1" w1).2.


Definition forbidden : list Effect → Request → Settle :=
  λ _ _, Resolves 15 (mkResponse 403 "Forbidden" None).

(** Hub answers: a reply, and a server error. *)
Definition hub_done : Settle :=
  Resolves 30000 (mkResponse 200 "" (Some {[ "response" := "done" ]})).

Definition hub_broken : Settle :=
  Resolves 2000 (mkResponse 500 "boom" None).

(** The URLs the upload-url route of [network_of] answers with. *)
Definition report_urls : gmap string string :=
  {[ "uploadUrl" := "https://cmc-docs/put";
     "s3Path" := "s3://cmc-docs/sourceDocs/report.pdf" ]}.

End MoreScenarios.

(* ================================================================== *)
(** * Properties of the hub orchestrator *)

Module HubFacts.
Import Hub.
Local Open Scope py_scope.

(** ** Traces *)

Lemma assume_role_calls_app tr1 tr2 :
  assume_role_calls (tr1 ++ tr2) = assume_role_calls tr1 + assume_role_calls tr2.
Proof. unfold assume_role_calls. by rewrite List.filter_app, length_app. Qed.

Lemma invocations_app tr1 tr2 :
  invocations (tr1 ++ tr2) = invocations tr1 ++ invocations tr2.
Proof.
  induction tr1 as [|c tr1 IH]; [done|].
  destruct c; simpl; by rewrite ?IH.
Qed.

Lemma assume_role_requests_app tr1 tr2 :
  assume_role_requests (tr1 ++ tr2) = assume_role_requests tr1 ++ assume_role_requests tr2.
Proof.
  induction tr1 as [|c tr1 IH]; [done|].
  destruct c; simpl; by rewrite ?IH.
Qed.

(** ** Texts and streams *)

Lemma append_nil_r s : s +:+ "" = s.
Proof.
  induction s as [|a s IH]; [done|].
  change (String a (s +:+ "") = String a s). by rewrite IH.
Qed.

Lemma append_assoc s1 s2 s3 : (s1 +:+ s2) +:+ s3 = s1 +:+ (s2 +:+ s3).
Proof.
  induction s1 as [|a s1 IH]; [done|].
  change (String a ((s1 +:+ s2) +:+ s3) = String a (s1 +:+ (s2 +:+ s3))).
  by rewrite IH.
Qed.

Lemma fragments_cons event events :
  fragments (event :: events) =
  match event_chunk event with
  | Some (mkChunk (Some bs)) => bs :: fragments events
  | _ => fragments events
  end.
Proof. by destruct event as [[[[bs|]]|]]. Qed.

(** When every fragment decodes, the loop ends with the accumulator
    extended by the decoded texts in arrival order. *)
Lemma process_stream_decoded events : ∀ result texts,
  mapM Utf8.decode (fragments events) = Some texts →
  process_stream events result = Returned (result +:+ join texts).
Proof.
  induction events as [|event events IH]; intros result texts.
  - intros [= <-]. simpl. by rewrite append_nil_r.
  - rewrite fragments_cons. simpl.
    destruct (event_chunk event) as [[[bs|]]|]; [|by apply IH..].
    simpl. destruct (Utf8.decode bs) as [text|]; [|done]. simpl.
    destruct (mapM Utf8.decode (fragments events)) as [rest|] eqn:Hrest; [|done].
    intros [= <-]. rewrite (IH _ rest eq_refl). simpl.
    by rewrite append_assoc.
Qed.

(** When some fragment does not decode, the loop raises at the first
    such fragment, whatever was accumulated before. *)
Lemma process_stream_undecodable events : ∀ result bs,
  bs ∈ fragments events → Utf8.decode bs = None →
  ∃ bad, bad ∈ fragments events ∧ Utf8.decode bad = None ∧
         process_stream events result = Raised (UnicodeDecodeError bad).
Proof.
  induction events as [|event events IH]; intros result bs.
  - by intros ?%elem_of_nil.
  - rewrite fragments_cons. simpl.
    destruct (event_chunk event) as [[[bs0|]]|]; [|by apply IH..].
    intros Hin Hbs. destruct (Utf8.decode bs0) as [text|] eqn:Hbs0.
    + apply elem_of_cons in Hin as [->|Hin]; [congruence|].
      destruct (IH (result +:+ text) bs Hin Hbs) as (bad & ? & ? & ?).
      exists bad. split; [by right|done].
    + exists bs0. split; [by left|done].
Qed.

Section Runs.

Variable aws : AWS.
Variable environ : gmap string string.

Local Abbreviation broker := (get_cross_account_bedrock_client aws environ).
Local Abbreviation dispatch := (invoke_bedrock_agent aws environ).
Local Abbreviation broker_sts := (broker_sts environ).
Local Abbreviation before_assume := (before_assume environ).
Local Abbreviation broker_session := (broker_session environ).
Local Abbreviation verifier := (verifier environ).
Local Abbreviation before_identity := (before_identity environ).
Local Abbreviation isolated_client := (isolated_client environ).

(** One run of the broker, case by case on what AWS answers. *)
Lemma broker_run account_id w :
  broker account_id w =
  match sts_assume_role aws (before_assume account_id w) (broker_sts w)
                        (assume_role_request account_id) with
  | inl e =>
    (Raised (BotocoreError e),
     mkWorld (before_assume account_id w ++
              [AssumeRole (broker_sts w) (assume_role_request account_id)])
             (S (next_obj w)))
  | inr creds =>
    match sts_get_caller_identity aws (before_identity account_id w creds)
                                  (verifier w creds) with
    | inl e =>
      (Raised (BotocoreError e),
       mkWorld (before_identity account_id w creds ++
                [GetCallerIdentity (verifier w creds)])
               (S (S (S (next_obj w)))))
    | inr account =>
      if String.eqb account account_id then
        (Returned (isolated_client w creds),
         mkWorld (before_identity account_id w creds ++
                  [GetCallerIdentity (verifier w creds);
                   Print ("[Hub] ✅ Identity: Account=" +:+ account);
                   SessionClient (broker_session w creds) (isolated_client w creds)])
                 (S (S (S (S (next_obj w))))))
      else
        (Raised (Exception ("Expected account " +:+ account_id +:+ ", got " +:+ account)),
         mkWorld (before_identity account_id w creds ++
                  [GetCallerIdentity (verifier w creds);
                   Print ("[Hub] ✅ Identity: Account=" +:+ account)])
                 (S (S (S (next_obj w)))))
    end
  end.
Proof.
  unfold get_cross_account_bedrock_client, before_identity, before_assume.
  unfold bind, print, log_call, boto3_client, boto3_Session, session_client,
    assume_role, get_caller_identity, history, fresh, bind, ret, log_call. simpl.
  rewrite <- !app_assoc. simpl.
  fold (broker_sts w).
  destruct (sts_assume_role _ _ _ _) as [e|creds]; simpl; [done|].
  rewrite <- !app_assoc. simpl.
  fold (broker_session w creds) (verifier w creds).
  destruct (sts_get_caller_identity _ _ _) as [e|account]; simpl.
  { by rewrite <- ?app_assoc. }
  destruct (String.eqb account account_id); simpl; unfold raise;
    by rewrite <- ?app_assoc.
Qed.

Lemma broker_assume_role_requests account_id w :
  assume_role_requests (trace (broker account_id w).2) =
  assume_role_requests (trace w) ++ [assume_role_request account_id].
Proof.
  rewrite broker_run.
  destruct (sts_assume_role _ _ _ _) as [e|creds];
    [|destruct (sts_get_caller_identity _ _ _) as [e|account];
      [|destruct (String.eqb account account_id)]];
    unfold Hub.before_identity, Hub.before_assume; simpl;
    by rewrite !assume_role_requests_app, <- ?app_assoc, ?app_nil_r.
Qed.

Lemma broker_assume_role_calls account_id w :
  assume_role_calls (trace (broker account_id w).2) = S (assume_role_calls (trace w)).
Proof.
  rewrite broker_run.
  destruct (sts_assume_role _ _ _ _) as [e|creds];
    [|destruct (sts_get_caller_identity _ _ _) as [e|account];
      [|destruct (String.eqb account account_id)]];
    unfold Hub.before_identity, Hub.before_assume; simpl;
    unfold assume_role_calls; rewrite !List.filter_app, !length_app; simpl; lia.
Qed.

Lemma broker_invocations account_id w :
  invocations (trace (broker account_id w).2) = invocations (trace w).
Proof.
  rewrite broker_run.
  destruct (sts_assume_role _ _ _ _) as [e|creds];
    [|destruct (sts_get_caller_identity _ _ _) as [e|account];
      [|destruct (String.eqb account account_id)]];
    unfold Hub.before_identity, Hub.before_assume; simpl;
    by rewrite !invocations_app, ?app_nil_r.
Qed.

(** Loading the module allocates the local client; from then on its identity
    is below [next_obj]. *)
Lemma load_module_run w :
  load_module environ w =
  (Returned (mkClient (next_obj w) "bedrock-agent-runtime" (REGION environ) Ambient),
   mkWorld (trace w ++
            [Boto3Client (mkClient (next_obj w) "bedrock-agent-runtime"
                                   (REGION environ) Ambient)])
           (S (next_obj w))).
Proof. done. Qed.

(** A client the broker returns is a new object, bound to the credentials
    that the assumption of this run produced. *)
Lemma broker_returned_client account_id w c :
  (broker account_id w).1 = Returned c →
  (next_obj w ≤ client_obj c)%nat ∧
  ∃ creds,
    sts_assume_role aws (before_assume account_id w) (broker_sts w)
                    (assume_role_request account_id) = inr creds ∧
    client_creds c = Explicit creds.
Proof.
  rewrite broker_run.
  destruct (sts_assume_role _ _ _ _) as [e|creds]; [done|].
  destruct (sts_get_caller_identity _ _ _) as [e|account]; [done|].
  destruct (String.eqb account account_id); [|done].
  simpl. intros [= <-]. simpl. split; [lia|]. by exists creds.
Qed.

(** ** Credential broker *)

(** C9. Every call of the broker performs exactly one role assumption,
    whatever happened before it: the request is always sent (no cache is
    consulted), it is sent once (a denied assumption is raised to the
    caller at once, without a second attempt), and a client that is
    returned is a new object bound to the credentials that this very
    call's assumption produced. *)
Theorem acquire_one_fresh_assumption account_id w :
  assume_role_calls (trace (broker account_id w).2) = S (assume_role_calls (trace w))
  ∧ assume_role_requests (trace (broker account_id w).2) =
    assume_role_requests (trace w) ++ [assume_role_request account_id]
  ∧ (∀ e,
      sts_assume_role aws (before_assume account_id w) (broker_sts w)
                      (assume_role_request account_id) = inl e →
      broker account_id w =
      (Raised (BotocoreError e),
       mkWorld (before_assume account_id w ++
                [AssumeRole (broker_sts w) (assume_role_request account_id)])
               (S (next_obj w))))
  ∧ (∀ c,
      (broker account_id w).1 = Returned c →
      (next_obj w ≤ client_obj c)%nat ∧
      ∃ creds,
        sts_assume_role aws (before_assume account_id w) (broker_sts w)
                        (assume_role_request account_id) = inr creds ∧
        client_creds c = Explicit creds).
Proof.
  split; [apply broker_assume_role_calls|].
  split; [apply broker_assume_role_requests|].
  split.
  - intros e He. by rewrite broker_run, He.
  - apply broker_returned_client.
Qed.

(** C2. When the assumption succeeded and the identity check of the new
    session answers an account other than the requested one, the broker
    raises [Exception("Expected account <requested>, got <found>")]: no
    client is returned, none is even created, and the exception is not
    the botocore error that a denied assumption raises. *)
Theorem acquire_identity_mismatch account_id w creds account :
  sts_assume_role aws (before_assume account_id w) (broker_sts w)
                  (assume_role_request account_id) = inr creds →
  sts_get_caller_identity aws (before_identity account_id w creds)
                          (verifier w creds) = inr account →
  account ≠ account_id →
  broker account_id w =
    (Raised (Exception ("Expected account " +:+ account_id +:+ ", got " +:+ account)),
     mkWorld (before_identity account_id w creds ++
              [GetCallerIdentity (verifier w creds);
               Print ("[Hub] ✅ Identity: Account=" +:+ account)])
             (S (S (S (next_obj w)))))
  ∧ (∀ c, (broker account_id w).1 ≠ Returned c)
  ∧ (∀ e, (broker account_id w).1 ≠ Raised (BotocoreError e)).
Proof.
  intros Hassume Hid Hne.
  rewrite broker_run, Hassume, Hid.
  destruct (String.eqb_spec account account_id) as [->|_]; [done|].
  by repeat split.
Qed.

(** C4 (amended). The role ARN of every assumption request is the fixed
    [CROSS_ACCOUNT_ROLE_ARN], which names account 152864141302 whatever
    the requested target; only the session name, ["HubSession-"] followed
    by the target, depends on the target.  The pre-shared external
    identifier is presented with every request. *)
Theorem acquire_presents_fixed_role account_id w :
  assume_role_requests (trace (broker account_id w).2) =
    assume_role_requests (trace w) ++
    [mkAssumeRoleRequest
       "arn:aws:iam::152864141302:role/cmcCrossAccountBedrockInvokeRole"
       ("HubSession-" +:+ account_id)
       "bedrock-cross-account-2024"].
Proof. apply broker_assume_role_requests. Qed.

(** ** Dispatcher *)

Local Abbreviation choose := (choose_client aws environ).

(** A dispatch whose client choice raised ends there. *)
Lemma dispatch_choice_raised bc agent user_request session_id w e w1 :
  truthy (agent !! "alias_id") = true →
  choose bc (agent !! "account_id") w = (Raised e, w1) →
  dispatch bc agent user_request session_id w = (Raised e, w1).
Proof.
  intros Halias Hchoose. unfold invoke_bedrock_agent.
  rewrite Halias. simpl. unfold bind at 1. by rewrite Hchoose.
Qed.

(** A dispatch whose client choice returned [c] invokes the agent on [c],
    once, and assembles what comes back. *)
Lemma dispatch_run bc agent user_request session_id w c w1 :
  truthy (agent !! "alias_id") = true →
  choose bc (agent !! "account_id") w = (Returned c, w1) →
  dispatch bc agent user_request session_id w =
  (match bedrock_invoke_agent aws (trace w1) c
           (request_of agent user_request session_id) with
   | inl e => Raised (BotocoreError e)
   | inr response => assemble_response response
   end,
   mkWorld (trace w1 ++ [InvokeAgent c (request_of agent user_request session_id)])
           (next_obj w1)).
Proof.
  intros Halias Hchoose. unfold invoke_bedrock_agent.
  rewrite Halias. simpl. unfold bind at 1. rewrite Hchoose.
  unfold invoke_agent, bind, history, log_call, lift_boto, lift_outcome. simpl.
  fold (request_of agent user_request session_id).
  by destruct (bedrock_invoke_agent _ _ _ _).
Qed.

Lemma choose_local bc account_id w :
  account_id = None ∨ account_id = Some "" ∨ account_id = Some LOCAL_ACCOUNT_ID →
  choose bc account_id w =
  (Returned bc, mkWorld (trace w ++ [Print "[Hub] Using local client"]) (next_obj w)).
Proof. by intros [->|[->| ->]]. Qed.

Lemma choose_cross bc account_id w :
  account_id ≠ "" → account_id ≠ LOCAL_ACCOUNT_ID →
  choose bc (Some account_id) w =
  broker account_id
    (print ("[Hub] Using cross-account client for " +:+ account_id) w).2.
Proof.
  intros Hne Hlocal. unfold choose_client.
  assert (truthy (Some account_id) = true) as -> by by destruct account_id.
  simpl. by destruct (String.eqb_spec account_id LOCAL_ACCOUNT_ID).
Qed.

(** C1 (amended). For a record with a non-empty [alias_id]:
    when [account_id] is a non-empty string other than the local account,
    the dispatch runs the broker exactly once (one role assumption); if
    the broker returns a client, the agent is invoked once, on that very
    client object, which is not the local client; if the broker raises,
    the dispatch raises the same exception and invokes nothing.
    When [account_id] is missing, empty or the local account, the dispatch
    assumes no role and invokes the agent once on the local client. *)
Theorem dispatch_routing bc agent user_request session_id w :
  truthy (agent !! "alias_id") = true →
  (client_obj bc < next_obj w)%nat →
  (∀ account_id,
      agent !! "account_id" = Some account_id →
      account_id ≠ "" → account_id ≠ LOCAL_ACCOUNT_ID →
      assume_role_calls (trace (dispatch bc agent user_request session_id w).2) =
        S (assume_role_calls (trace w)) ∧
      match broker account_id
              (print ("[Hub] Using cross-account client for " +:+ account_id) w).2 with
      | (Returned c, _) =>
        c ≠ bc ∧
        invocations (trace (dispatch bc agent user_request session_id w).2) =
          invocations (trace w) ++ [(c, request_of agent user_request session_id)]
      | (Raised e, w1) =>
        dispatch bc agent user_request session_id w = (Raised e, w1) ∧
        invocations (trace (dispatch bc agent user_request session_id w).2) =
          invocations (trace w)
      end)
  ∧ (agent !! "account_id" = None ∨ agent !! "account_id" = Some "" ∨
     agent !! "account_id" = Some LOCAL_ACCOUNT_ID →
      trace (dispatch bc agent user_request session_id w).2 =
        trace w ++ [Print "[Hub] Using local client";
                    InvokeAgent bc (request_of agent user_request session_id)] ∧
      assume_role_calls (trace (dispatch bc agent user_request session_id w).2) =
        assume_role_calls (trace w) ∧
      invocations (trace (dispatch bc agent user_request session_id w).2) =
        invocations (trace w) ++ [(bc, request_of agent user_request session_id)]).
Proof.
  intros Halias Hbc. split.
  - intros account_id Hacc Hne Hlocal.
    pose proof (choose_cross bc account_id w Hne Hlocal) as Hchoose.
    rewrite <- Hacc in Hchoose at 1.
    set (w0 := (print _ w).2) in *.
    pose proof (broker_assume_role_calls account_id w0) as Hcalls.
    pose proof (broker_invocations account_id w0) as Hinv.
    assert (trace w0 = trace w ++
              [Print ("[Hub] Using cross-account client for " +:+ account_id)])
      as Hw0 by done.
    assert (next_obj w0 = next_obj w) as Hn0 by done.
    rewrite Hw0, assume_role_calls_app in Hcalls.
    rewrite Hw0, invocations_app, app_nil_r in Hinv.
    pose proof (broker_returned_client account_id w0) as Hfresh.
    destruct (broker account_id w0) as [[c|e] w1] eqn:Hrun; simpl in *.
    + rewrite (dispatch_run _ _ _ _ _ _ _ Halias Hchoose). simpl.
      rewrite assume_role_calls_app, invocations_app, Hcalls, Hinv. simpl.
      split; [unfold assume_role_calls; simpl; lia|].
      split; [|done].
      destruct (Hfresh c eq_refl) as [Hle _]. intros ->. lia.
    + rewrite (dispatch_choice_raised _ _ _ _ _ _ _ Halias Hchoose). simpl.
      rewrite Hcalls, Hinv. split; [unfold assume_role_calls; simpl; lia|done].
  - intros Hacc.
    rewrite (dispatch_run _ _ _ _ _ _ _ Halias (choose_local bc _ w Hacc)). simpl.
    rewrite <- app_assoc. split; [done|].
    rewrite assume_role_calls_app, invocations_app. simpl.
    split; [unfold assume_role_calls; simpl; lia|done].
Qed.

(** C6 (amended). For a record whose [alias_id] is missing or empty the
    dispatch returns, as an ordinary text result, the string
    ["Error: Missing alias_id for agent <agent_id>"]; the world is left
    untouched: no broker call and no agent invocation. *)
Theorem dispatch_missing_alias bc agent user_request session_id w :
  truthy (agent !! "alias_id") = false →
  dispatch bc agent user_request session_id w =
  (Returned ("Error: Missing alias_id for agent " +:+ fmt (agent !! "agent_id")), w).
Proof. intros Halias. unfold invoke_bedrock_agent. by rewrite Halias. Qed.

(** C3 (amended). When the stream carries no fragment, or only empty
    fragments, the dispatch returns the text ["No response from agent."];
    it is an ordinary text result and is the same in both cases. *)
Theorem dispatch_empty_stream bc agent user_request session_id w c w1 response :
  truthy (agent !! "alias_id") = true →
  choose bc (agent !! "account_id") w = (Returned c, w1) →
  bedrock_invoke_agent aws (trace w1) c (request_of agent user_request session_id)
    = inr response →
  Forall (λ bs, bs = []) (fragments (default [] (completion response))) →
  (dispatch bc agent user_request session_id w).1 = Returned "No response from agent.".
Proof.
  intros Halias Hchoose Hreply Hempty.
  rewrite (dispatch_run _ _ _ _ _ _ _ Halias Hchoose), Hreply. simpl.
  unfold assemble_response.
  assert (∃ texts, mapM Utf8.decode (fragments (default [] (completion response)))
                   = Some texts ∧ join texts = "") as (texts & Hdec & Hjoin).
  { induction Hempty as [|bs l -> _ (texts & Hdec & Hjoin)]; [by exists []|].
    exists ("" :: texts). split; [|done].
    change (mapM Utf8.decode ([] :: l)) with
      (text ← Utf8.decode []; rest ← mapM Utf8.decode l; Some (text :: rest)).
    by rewrite Hdec. }
  by rewrite (process_stream_decoded _ _ _ Hdec), Hjoin.
Qed.

(** C5. When a fragment of the stream does not decode as UTF-8, the
    dispatch raises [UnicodeDecodeError] on the first such fragment: the
    fragment is not skipped and no text is returned. *)
Theorem dispatch_decode_failure bc agent user_request session_id w c w1 response bs :
  truthy (agent !! "alias_id") = true →
  choose bc (agent !! "account_id") w = (Returned c, w1) →
  bedrock_invoke_agent aws (trace w1) c (request_of agent user_request session_id)
    = inr response →
  bs ∈ fragments (default [] (completion response)) →
  Utf8.decode bs = None →
  (∃ bad, bad ∈ fragments (default [] (completion response)) ∧
          Utf8.decode bad = None ∧
          (dispatch bc agent user_request session_id w).1
            = Raised (UnicodeDecodeError bad))
  ∧ (∀ text, (dispatch bc agent user_request session_id w).1 ≠ Returned text).
Proof.
  intros Halias Hchoose Hreply Hin Hbs.
  rewrite (dispatch_run _ _ _ _ _ _ _ Halias Hchoose), Hreply. simpl.
  unfold assemble_response.
  destruct (process_stream_undecodable _ "" bs Hin Hbs) as (bad & ? & ? & ->).
  split; [by exists bad|done].
Qed.

(** C8 (amended). When every fragment decodes and the concatenation of
    the decoded texts, in arrival order, is not empty, the dispatch
    returns exactly that concatenation. *)
Theorem dispatch_reassembles bc agent user_request session_id w c w1 response texts :
  truthy (agent !! "alias_id") = true →
  choose bc (agent !! "account_id") w = (Returned c, w1) →
  bedrock_invoke_agent aws (trace w1) c (request_of agent user_request session_id)
    = inr response →
  mapM Utf8.decode (fragments (default [] (completion response))) = Some texts →
  join texts ≠ "" →
  (dispatch bc agent user_request session_id w).1 = Returned (join texts).
Proof.
  intros Halias Hchoose Hreply Hdec Hne.
  rewrite (dispatch_run _ _ _ _ _ _ _ Halias Hchoose), Hreply. simpl.
  unfold assemble_response. rewrite (process_stream_decoded _ _ _ Hdec).
  change ("" +:+ join texts) with (join texts).
  by destruct (String.eqb_spec (join texts) "").
Qed.

End Runs.
End HubFacts.

(* ================================================================== *)
(** * Properties of the upload-url route *)

Module UploadUrlFacts.
Import UploadUrl.

(** C10. With the bucket configured, a POST whose body carries [filename]
    and [contentType] asks the presigner for a PUT of the object
    ["sourceDocs/" + filename] in that bucket with a lifetime of exactly
    1500 seconds, and answers with the URL obtained and with the path
    ["s3://" + bucket + "/sourceDocs/" + filename].  The file name is any
    string at all: it is copied into the key and the path as it is. *)
Theorem post_reply env getSignedUrl bucket filename contentType uploadUrl :
  env !! "S3_BUCKET_NAME" = Some bucket →
  getSignedUrl (s3Client env)
               (mkPutObjectCommand (Some bucket) ("sourceDocs/" +:+ filename) contentType)
               1500 = inr uploadUrl →
  POST env getSignedUrl (Body (Some filename) contentType) =
  Json uploadUrl ("s3://" +:+ bucket +:+ "/sourceDocs/" +:+ filename).
Proof.
  intros Hbucket Hsigned. unfold POST. rewrite Hbucket. simpl.
  by rewrite Hsigned.
Qed.

End UploadUrlFacts.

(* ================================================================== *)
(** * Properties of the chat page *)

Module FrontendFacts.
Import Frontend.
Local Open Scope js_scope.

Section Page.

Variable network : list Effect → Request → Settle.
Variable env : gmap string string.
Variable sessionId : string.

Local Abbreviation handleFileUpload := (handleFileUpload network env sessionId).
Local Abbreviation call_hub := (call_hub network env sessionId).
Local Abbreviation hub_request := (hub_request env sessionId).

(** The hub call when the timer fires first: the request is aborted, the
    timer is cleared and an [Error] with the time-out text is thrown. *)
Lemma call_hub_deadline s3Path st :
  misses_deadline
    (network (effects st ++ [SetTimeout TIMEOUT_MS]) (hub_request s3Path)) →
  call_hub s3Path st =
  (Throw (ErrorObject "Error" TIMED_OUT),
   mkStore (ui st)
           (effects st ++ [SetTimeout TIMEOUT_MS; Fetch (hub_request s3Path);
                           Abort; ClearTimeout])).
Proof.
  intros Hmiss. unfold Frontend.call_hub, seq, effect, try_catch, fetch_with_deadline.
  simpl. unfold misses_deadline in Hmiss.
  destruct (network _ _) as [t res|t error|]; simpl;
    try (apply N.ltb_ge in Hmiss; rewrite Hmiss); simpl;
    unfold throw; by rewrite <- !app_assoc.
Qed.

(** The hub call when the hub answers 504 before the timer fires. *)
Lemma call_hub_gateway_timeout s3Path st t hubRes :
  network (effects st ++ [SetTimeout TIMEOUT_MS]) (hub_request s3Path)
    = Resolves t hubRes →
  (t < TIMEOUT_MS)%N → status hubRes = 504 →
  call_hub s3Path st =
  (Return,
   mkStore (mkUI (messages (ui st) ++ [mkMessage "assistant" STILL_PROCESSING])
                 (loading (ui st)) (uploading (ui st)) (fileInput (ui st)))
           (effects st ++ [SetTimeout TIMEOUT_MS; Fetch (hub_request s3Path);
                           ClearTimeout])).
Proof.
  intros Hnet Ht Hstatus.
  unfold Frontend.call_hub, seq, effect, try_catch, fetch_with_deadline.
  simpl. rewrite Hnet. apply N.ltb_lt in Ht. rewrite Ht. simpl.
  unfold ok. rewrite Hstatus. simpl.
  unfold setMessages, update, return_. simpl. by rewrite <- !app_assoc.
Qed.

(** C7 (amended). In a document-upload turn whose upload succeeded:
    when the hub request has not settled by the time the 120000 ms timer
    fires, the request is aborted and the user is shown, as an error, the
    text "Request timed out - document processing is taking too long";
    the "still processing" assistant message is what the user is shown
    when the hub answers HTTP 504 before the timer fires.  Either way the
    handler completes and the page stops loading. *)
Theorem upload_turn_deadline file st t1 res urls t2 uploadRes :
  network (effects st) (upload_url_request file) = Resolves t1 res →
  ok res = true → json res = Some urls →
  network (effects st ++ [Fetch (upload_url_request file)])
          (put_request file (urls !! "uploadUrl")) = Resolves t2 uploadRes →
  ok uploadRes = true →
  let before_hub :=
    effects st ++ [Fetch (upload_url_request file);
                   Fetch (put_request file (urls !! "uploadUrl"));
                   SetTimeout TIMEOUT_MS] in
  let shown m :=
    mkUI (messages (ui st) ++ [mkMessage "user" ("📎 " +:+ file_name file); m])
         false false
         (match fileInput (ui st) with Some _ => Some "" | None => None end) in
  (misses_deadline (network before_hub (hub_request (urls !! "s3Path"))) →
   handleFileUpload (Some file) st =
   (Normal tt,
    mkStore (shown (mkMessage "error" TIMED_OUT))
            (before_hub ++ [Fetch (hub_request (urls !! "s3Path")); Abort; ClearTimeout])))
  ∧ (∀ t hubRes,
      network before_hub (hub_request (urls !! "s3Path")) = Resolves t hubRes →
      (t < TIMEOUT_MS)%N → status hubRes = 504 →
      handleFileUpload (Some file) st =
      (Return,
       mkStore (shown (mkMessage "assistant" STILL_PROCESSING))
               (before_hub ++ [Fetch (hub_request (urls !! "s3Path")); ClearTimeout]))).
Proof.
  intros Hurl Hok Hjson Hput Hokput before_hub shown.
  set (st2 := mkStore
                (mkUI (messages (ui st) ++ [mkMessage "user" ("📎 " +:+ file_name file)])
                      true true (fileInput (ui st)))
                (effects st ++ [Fetch (upload_url_request file);
                                Fetch (put_request file (urls !! "uploadUrl"))])).
  assert (effects st2 ++ [SetTimeout TIMEOUT_MS] = before_hub) as Hbefore.
  { unfold st2, before_hub. simpl. by rewrite <- app_assoc. }
  assert (∀ r, Frontend.call_hub network env sessionId (urls !! "s3Path") st2 = r →
               handleFileUpload (Some file) st =
               try_finally
                 (try_catch (λ _, r)
                    (λ err, setMessages (mkMessage "error"
                       (match err with
                        | ErrorObject _ message => message
                        | NotAnError => "Upload failed"
                        end))))
                 (setUploading false ;;! setLoading false ;;! clearFileInput) st2)
    as Hrun.
  { intros r <-. unfold Frontend.handleFileUpload.
    unfold seq at 1 2. simpl.
    unfold try_finally, try_catch, seq, fetch, res_json. simpl.
    rewrite Hurl, Hok, Hjson. simpl. rewrite Hput, Hokput. simpl.
    unfold st2. by rewrite <- !app_assoc. }
  split.
  - intros Hmiss. rewrite <- Hbefore in Hmiss.
    rewrite (Hrun _ (call_hub_deadline _ _ Hmiss)).
    unfold try_finally, try_catch. simpl.
    unfold shown, before_hub, st2. simpl. by rewrite <- !app_assoc.
  - intros t hubRes Hnet Ht Hstatus. rewrite <- Hbefore in Hnet.
    rewrite (Hrun _ (call_hub_gateway_timeout _ _ _ _ Hnet Ht Hstatus)).
    unfold try_finally, try_catch. simpl.
    unfold shown, before_hub, st2. simpl. by rewrite <- !app_assoc.
Qed.

End Page.

End FrontendFacts.

(* ================================================================== *)
(** * The properties on concrete runs *)

Module Cases.
Import Hub Scenario HubFacts.

(** The scenarios start where loading the module leaves the interpreter. *)
Example scenario_start : load_module ∅ w0 = (Returned local_client, w1).
Proof. reflexivity. Qed.

(** ** Credential broker *)

Lemma acquire_one_fresh_assumption_witness :
  assume_role_calls
    (trace (get_cross_account_bedrock_client aws0 ∅ "152864141302"
              (get_cross_account_bedrock_client aws0 ∅ "152864141302" w1).2).2) = 2.
Proof.
  rewrite (proj1 (acquire_one_fresh_assumption aws0 ∅ "152864141302" _)).
  rewrite (proj1 (acquire_one_fresh_assumption aws0 ∅ "152864141302" w1)).
  reflexivity.
Defined.

Lemma acquire_identity_mismatch_witness :
  (get_cross_account_bedrock_client (aws_of leaking (stream [])) ∅ "152864141302" w2).1
  = Raised (Exception "Expected account 152864141302, got 843074507558").
Proof.
  rewrite (proj1 (acquire_identity_mismatch (aws_of leaking (stream [])) ∅
                    "152864141302" w2 target_creds "843074507558"
                    eq_refl eq_refl ltac:(discriminate))).
  reflexivity.
Defined.

Lemma acquire_presents_fixed_role_witness :
  assume_role_requests
    (trace (get_cross_account_bedrock_client aws0 ∅ "152864141302" w1).2) =
  [mkAssumeRoleRequest
     "arn:aws:iam::152864141302:role/cmcCrossAccountBedrockInvokeRole"
     "HubSession-152864141302" "bedrock-cross-account-2024"].
Proof. exact (acquire_presents_fixed_role aws0 ∅ "152864141302" w1). Defined.

(** C4, as stated, fails: asked for account 111111111111 the broker
    presents the very role ARN it presents for account 152864141302, an ARN
    that names 152864141302. *)
Lemma role_arn_ignores_target :
  "111111111111" ≠ "152864141302" ∧
  map RoleArn (assume_role_requests
    (trace (get_cross_account_bedrock_client aws0 ∅ "111111111111" w1).2)) =
  ["arn:aws:iam::152864141302:role/cmcCrossAccountBedrockInvokeRole"] ∧
  map RoleArn (assume_role_requests
    (trace (get_cross_account_bedrock_client aws0 ∅ "152864141302" w1).2)) =
  ["arn:aws:iam::152864141302:role/cmcCrossAccountBedrockInvokeRole"].
Proof. split; [discriminate|]. split; reflexivity. Qed.

(** ** Dispatcher *)

Lemma dispatch_routing_witness :
  truthy (vessel_agent !! "alias_id") = true ∧
  (client_obj local_client < next_obj w1)%nat ∧
  invocations (trace (invoke_bedrock_agent aws0 ∅ local_client vessel_agent "hi" "s1" w1).2)
  = [(vessel_client, request_of vessel_agent "hi" "s1")] ∧
  invocations (trace (invoke_bedrock_agent aws0 ∅ local_client local_agent "hi" "s1" w1).2)
  = [(local_client, request_of local_agent "hi" "s1")].
Proof.
  split; [reflexivity|]. split; [simpl; lia|]. split.
  - pose proof (proj1 (dispatch_routing aws0 ∅ local_client vessel_agent "hi" "s1" w1
                         eq_refl ltac:(simpl; lia))
                  "152864141302" eq_refl ltac:(discriminate) ltac:(discriminate)) as H.
    exact (proj2 (proj2 H)).
  - pose proof (proj2 (dispatch_routing aws0 ∅ local_client local_agent "hi" "s1" w1
                         eq_refl ltac:(simpl; lia))
                  (or_introl eq_refl)) as H.
    exact (proj2 (proj2 H)).
Defined.

(** C1, as stated, fails: this record names an account other than the
    local one, yet its dispatch assumes no role and leaves the world as it
    found it, because the alias is empty. *)
Lemma empty_alias_skips_broker :
  no_alias_agent !! "account_id" = Some "152864141302" ∧
  "152864141302" ≠ LOCAL_ACCOUNT_ID ∧
  invoke_bedrock_agent aws0 ∅ local_client no_alias_agent "hi" "s1" w1 =
    (Returned "Error: Missing alias_id for agent PEGHWIVI5Y", w1) ∧
  assume_role_calls
    (trace (invoke_bedrock_agent aws0 ∅ local_client no_alias_agent "hi" "s1" w1).2) = 0.
Proof. split; [reflexivity|]. split; [discriminate|]. split; reflexivity. Qed.

Lemma dispatch_missing_alias_witness :
  truthy (no_alias_agent !! "alias_id") = false ∧
  invoke_bedrock_agent aws0 ∅ local_client no_alias_agent "hi" "s1" w1 =
    (Returned "Error: Missing alias_id for agent PEGHWIVI5Y", w1).
Proof.
  split; [reflexivity|].
  exact (dispatch_missing_alias aws0 ∅ local_client no_alias_agent "hi" "s1" w1 eq_refl).
Defined.

(** C6, as stated, fails: the result for an empty alias is a returned text,
    not a raised error, and it is the very result of a successful dispatch
    whose agent streamed that text. *)
Lemma missing_alias_is_plain_text :
  (invoke_bedrock_agent aws0 ∅ local_client no_alias_agent "hi" "s1" w1).1 =
    Returned "Error: Missing alias_id for agent PEGHWIVI5Y" ∧
  (invoke_bedrock_agent
     (aws_of isolated (stream ["Error: Missing alias_id for agent PEGHWIVI5Y"]))
     ∅ local_client vessel_agent "hi" "s1" w1).1 =
  (invoke_bedrock_agent aws0 ∅ local_client no_alias_agent "hi" "s1" w1).1.
Proof. split; reflexivity. Qed.

Lemma dispatch_empty_stream_witness :
  (invoke_bedrock_agent (aws_of isolated (stream [])) ∅ local_client local_agent
     "hi" "s1" w1).1 = Returned "No response from agent.".
Proof.
  exact (dispatch_empty_stream (aws_of isolated (stream [])) ∅ local_client local_agent
           "hi" "s1" w1 local_client w3 (stream [])
           eq_refl eq_refl eq_refl (Forall_nil_2 _)).
Defined.

(** C3, as stated, fails: a stream with no chunk and a stream whose one
    chunk is the empty text give the same result. *)
Lemma empty_stream_indistinguishable :
  (invoke_bedrock_agent (aws_of isolated (stream [])) ∅ local_client local_agent
     "hi" "s1" w1).1 =
  (invoke_bedrock_agent (aws_of isolated (stream [""])) ∅ local_client local_agent
     "hi" "s1" w1).1.
Proof. reflexivity. Qed.

Lemma dispatch_decode_failure_witness :
  Utf8.decode [Byte.x80] = None ∧
  (∃ bad, bad ∈ fragments (default [] (completion broken_stream)) ∧
          Utf8.decode bad = None ∧
          (invoke_bedrock_agent (aws_of isolated broken_stream) ∅ local_client
             local_agent "hi" "s1" w1).1 = Raised (UnicodeDecodeError bad)) ∧
  (∀ text, (invoke_bedrock_agent (aws_of isolated broken_stream) ∅ local_client
              local_agent "hi" "s1" w1).1 ≠ Returned text).
Proof.
  split; [reflexivity|].
  exact (dispatch_decode_failure (aws_of isolated broken_stream) ∅ local_client
           local_agent "hi" "s1" w1 local_client w3 broken_stream [Byte.x80]
           eq_refl eq_refl eq_refl ltac:(right; left) eq_refl).
Defined.

Lemma dispatch_reassembles_witness :
  (invoke_bedrock_agent aws0 ∅ local_client vessel_agent "hi" "s1" w1).1
  = Returned "Hello, world".
Proof.
  exact (dispatch_reassembles aws0 ∅ local_client vessel_agent "hi" "s1" w1
           vessel_client
           (get_cross_account_bedrock_client aws0 ∅ "152864141302" w2).2
           (stream ["Hel"; "lo, "; "world"]) ["Hel"; "lo, "; "world"]
           eq_refl eq_refl eq_refl eq_refl ltac:(discriminate)).
Defined.

(** C8, as stated, fails: the one chunk of this stream decodes to the empty
    text, so the concatenation is empty, but the dispatch returns another
    text. *)
Lemma empty_text_not_reassembled :
  mapM Utf8.decode (fragments (default [] (completion (stream [""])))) = Some [""] ∧
  join [""] = "" ∧
  (invoke_bedrock_agent (aws_of isolated (stream [""])) ∅ local_client local_agent
     "hi" "s1" w1).1 = Returned "No response from agent.".
Proof. repeat split; reflexivity. Qed.

(** ** Upload-url route *)

Lemma post_reply_witness :
  env0 !! "S3_BUCKET_NAME" = Some "cmc-docs" ∧
  UploadUrl.POST env0 presigner0
    (UploadUrl.Body (Some "../private/keys.pdf") (Some "application/pdf")) =
  UploadUrl.Json
    "PUT https://cmc-docs/sourceDocs/../private/keys.pdf?X-Amz-Expires=1500"
    "s3://cmc-docs/sourceDocs/../private/keys.pdf".
Proof.
  split; [reflexivity|].
  exact (UploadUrlFacts.post_reply env0 presigner0 "cmc-docs" "../private/keys.pdf"
           (Some "application/pdf") _ eq_refl eq_refl).
Defined.

(** ** Chat page *)

Import Frontend.

Lemma upload_turn_deadline_witness :
  handleFileUpload (network_of Never) env0 "session-1" (Some report) idle =
  (Normal tt,
   mkStore
     (mkUI [mkMessage "user" "📎 report.pdf"; mkMessage "error" TIMED_OUT]
           false false (Some ""))
     [Fetch (upload_url_request report);
      Fetch (put_request report (Some "https://cmc-docs/put"));
      SetTimeout TIMEOUT_MS;
      Fetch (hub_request env0 "session-1" (Some "s3://cmc-docs/sourceDocs/report.pdf"));
      Abort; ClearTimeout]).
Proof.
  exact (proj1 (FrontendFacts.upload_turn_deadline (network_of Never) env0 "session-1"
                  report idle 40
                  (mkResponse 200 ""
                     (Some {[ "uploadUrl" := "https://cmc-docs/put";
                              "s3Path" := "s3://cmc-docs/sourceDocs/report.pdf" ]}))
                  _ 900 (mkResponse 200 "" None)
                  eq_refl eq_refl eq_refl eq_refl eq_refl) I).
Defined.

(** C7, as stated, fails: the hub request of this upload turn never settles;
    the timer aborts it, and what the user is shown is an error message, not
    the "still processing" message. *)
Lemma upload_timeout_shows_error :
  last (messages (ui (handleFileUpload (network_of Never) env0 "session-1"
                        (Some report) idle).2))
  = Some (mkMessage "error" "Request timed out - document processing is taking too long")
  ∧ Abort ∈ effects (handleFileUpload (network_of Never) env0 "session-1"
                       (Some report) idle).2
  ∧ mkMessage "assistant" STILL_PROCESSING
    ∉ messages (ui (handleFileUpload (network_of Never) env0 "session-1"
                      (Some report) idle).2).
Proof.
  split; [reflexivity|]. split.
  - vm_compute. do 4 right. left.
  - vm_compute. intros H. repeat (apply elem_of_cons in H as [H|H]; [discriminate|]).
    by apply elem_of_nil in H.
Qed.

End Cases.

(* ================================================================== *)
(** * Further properties of the hub orchestrator *)

Module HubLaws.
Import Hub HubFacts.
Local Open Scope py_scope.

(** ** Decoding *)

Lemma string_of_list_byte_app a b :
  String.string_of_list_byte (a ++ b) =
  String.string_of_list_byte a +:+ String.string_of_list_byte b.
Proof.
  induction a as [|x a IH]; [done|].
  change (String (Ascii.ascii_of_byte x) (String.string_of_list_byte (a ++ b)) =
          String (Ascii.ascii_of_byte x)
                 (String.string_of_list_byte a +:+ String.string_of_list_byte b)).
  by rewrite IH.
Qed.

(** A well-formed sequence followed by any bytes is well formed exactly when
    those bytes are. *)
Lemma well_formed_app_below n : ∀ a b, (length a < n)%nat →
  Utf8.well_formed a = true → Utf8.well_formed (a ++ b) = Utf8.well_formed b.
Proof.
  induction n as [|n IH]; intros a b Hlen Ha; [lia|].
  destruct a as [|b0 r0]; [done|].
  simpl in *.
  destruct (b0 <=? 127)%N; [apply IH; [lia|done]|].
  destruct (Utf8.between 194 223 b0).
  { destruct r0 as [|b1 r1]; [done|]. simpl in *.
    apply andb_true_iff in Ha as [-> Ha]. simpl. apply IH; [lia|done]. }
  destruct (Utf8.between 224 239 b0).
  { destruct r0 as [|b1 [|b2 r2]]; [done..|]. simpl in *.
    apply andb_true_iff in Ha as [Ha Hr]. rewrite Ha. simpl. apply IH; [lia|done]. }
  destruct (Utf8.between 240 244 b0); [|done].
  destruct r0 as [|b1 [|b2 [|b3 r3]]]; [done..|]. simpl in *.
  apply andb_true_iff in Ha as [Ha Hr]. rewrite Ha. simpl. apply IH; [lia|done].
Qed.

Lemma decode_Some bs text :
  Utf8.decode bs = Some text →
  Utf8.well_formed (map Byte.to_N bs) = true ∧ text = String.string_of_list_byte bs.
Proof.
  unfold Utf8.decode. destruct (Utf8.well_formed _); [|done]. by intros [= <-].
Qed.

(** Decoding two decodable fragments as one gives the two texts in a row. *)
Lemma decode_app a b ta tb :
  Utf8.decode a = Some ta → Utf8.decode b = Some tb →
  Utf8.decode (a ++ b) = Some (ta +:+ tb).
Proof.
  intros [Ha ->]%decode_Some [Hb ->]%decode_Some. unfold Utf8.decode.
  rewrite map_app, (well_formed_app_below _ _ _ (Nat.lt_succ_diag_r _) Ha), Hb.
  by rewrite string_of_list_byte_app.
Qed.

Lemma decode_concat frags : ∀ texts,
  mapM Utf8.decode frags = Some texts →
  Utf8.decode (concat frags) = Some (join texts).
Proof.
  induction frags as [|bs frags IH]; intros texts.
  - by intros [= <-].
  - change (mapM Utf8.decode (bs :: frags)) with
      (text ← Utf8.decode bs; rest ← mapM Utf8.decode frags; Some (text :: rest)).
    destruct (Utf8.decode bs) as [text|] eqn:Hbs; [|done]. simpl.
    destruct (mapM Utf8.decode frags) as [rest|]; [|done]. simpl.
    intros [= <-]. by apply decode_app, IH.
Qed.

(** A fragment of bytes below 128 always decodes. *)
Lemma decode_ascii bs :
  Forall (λ b, (Byte.to_N b < 128)%N) bs → Utf8.decode bs = Some (String.string_of_list_byte bs).
Proof.
  intros Hbs. unfold Utf8.decode.
  assert (Utf8.well_formed (map Byte.to_N bs) = true) as ->; [|done].
  induction Hbs as [|b bs Hb _ IH]; [done|]. simpl.
  assert ((Byte.to_N b <=? 127)%N = true) as -> by (apply N.leb_le; lia). done.
Qed.

(** ** The stream loop *)

(** The loop sees a stream only through its fragments. *)
Lemma process_stream_fragments events : ∀ result,
  process_stream events result =
  process_stream (map (λ bs, mkEvent (Some (mkChunk (Some bs)))) (fragments events)) result.
Proof.
  induction events as [|event events IH]; intros result; [done|].
  rewrite fragments_cons. simpl.
  destruct (event_chunk event) as [[[bs|]]|]; [|by apply IH..].
  simpl. destruct (Utf8.decode bs); [apply IH|done].
Qed.

(** What [assemble_response] returns is never the empty text. *)
Lemma assemble_response_not_empty response :
  assemble_response response ≠ Returned "".
Proof.
  unfold assemble_response.
  destruct (process_stream _ _) as [result|e]; [|done].
  destruct (String.eqb_spec result ""); simpl; [done|congruence].
Qed.

(** X1. Events that carry no chunk, or a chunk without bytes, do not change
    what is assembled: two responses whose streams hold the same byte
    fragments in the same order assemble to the same outcome, and a response
    without the [completion] key assembles like an empty stream. *)
Theorem assemble_ignores_other_events response1 response2 :
  fragments (default [] (completion response1)) =
  fragments (default [] (completion response2)) →
  assemble_response response1 = assemble_response response2.
Proof.
  intros Hfrag. unfold assemble_response.
  by rewrite (process_stream_fragments (default [] (completion response1))),
             (process_stream_fragments (default [] (completion response2))), Hfrag.
Qed.

(** X2. When every fragment of a stream decodes, the way the remote side cut
    the bytes into chunks does not matter: the stream assembles to what a
    single chunk holding all the bytes assembles to. *)
Theorem assemble_rechunked response texts :
  mapM Utf8.decode (fragments (default [] (completion response))) = Some texts →
  assemble_response response =
  assemble_response
    (mkInvokeAgentResponse
       (Some [mkEvent (Some (mkChunk
                (Some (concat (fragments (default [] (completion response)))))))])).
Proof.
  intros Hdec. unfold assemble_response.
  rewrite (process_stream_decoded _ _ _ Hdec). simpl.
  by rewrite (decode_concat _ _ Hdec).
Qed.

(** X3. A stream all of whose bytes are below 128 never fails to decode: it
    assembles to a returned, non-empty text. *)
Theorem assemble_ascii response :
  Forall (Forall (λ b, (Byte.to_N b < 128)%N))
         (fragments (default [] (completion response))) →
  ∃ text, assemble_response response = Returned text ∧ text ≠ "".
Proof.
  intros Hascii.
  assert (∃ texts, mapM Utf8.decode (fragments (default [] (completion response)))
                   = Some texts) as [texts Hdec].
  { induction Hascii as [|bs frags Hbs _ [texts Hdec]]; [by exists []|].
    exists (String.string_of_list_byte bs :: texts).
    change (mapM Utf8.decode (bs :: frags)) with
      (text ← Utf8.decode bs; rest ← mapM Utf8.decode frags; Some (text :: rest)).
    by rewrite (decode_ascii _ Hbs), Hdec. }
  pose proof (assemble_response_not_empty response) as Hne.
  unfold assemble_response in *. rewrite (process_stream_decoded _ _ _ Hdec) in *.
  eexists. split; [done|]. congruence.
Qed.

Section Runs.

Variable aws : AWS.
Variable environ : gmap string string.

Local Abbreviation broker := (get_cross_account_bedrock_client aws environ).
Local Abbreviation dispatch := (invoke_bedrock_agent aws environ).
Local Abbreviation choose := (choose_client aws environ).
Local Abbreviation broker_sts := (broker_sts environ).
Local Abbreviation before_assume := (before_assume environ).
Local Abbreviation broker_session := (broker_session environ).
Local Abbreviation verifier := (verifier environ).
Local Abbreviation before_identity := (before_identity environ).
Local Abbreviation isolated_client := (isolated_client environ).

(** ** What a run leaves behind *)

(** A run of the broker only appends to the history and only takes new
    object identities; a client it returns has one of them. *)
Lemma broker_extends account_id w :
  trace w `prefix_of` trace (broker account_id w).2 ∧
  (next_obj w < next_obj (broker account_id w).2)%nat ∧
  ∀ c, (broker account_id w).1 = Returned c →
       (next_obj w ≤ client_obj c < next_obj (broker account_id w).2)%nat.
Proof.
  rewrite broker_run.
  destruct (sts_assume_role _ _ _ _) as [e|creds];
    [|destruct (sts_get_caller_identity _ _ _) as [e|account];
      [|destruct (String.eqb account account_id)]];
    unfold Hub.before_identity, Hub.before_assume; simpl;
    (split; [eexists; rewrite <- !app_assoc; reflexivity|]);
    (split; [lia|]); intros c; try done.
  intros [= <-]. simpl. lia.
Qed.

Lemma choose_cases bc account_id w :
  choose bc account_id w =
  if truthy account_id && negb (String.eqb (fmt account_id) LOCAL_ACCOUNT_ID) then
    broker (fmt account_id)
      (print ("[Hub] Using cross-account client for " +:+ fmt account_id) w).2
  else
    (Returned bc, mkWorld (trace w ++ [Print "[Hub] Using local client"]) (next_obj w)).
Proof. unfold choose_client. by destruct (_ && _). Qed.

Lemma choose_invocations bc account_id w :
  invocations (trace (choose bc account_id w).2) = invocations (trace w).
Proof.
  rewrite choose_cases. destruct (_ && _).
  - rewrite broker_invocations. simpl. by rewrite invocations_app, app_nil_r.
  - simpl. by rewrite invocations_app, app_nil_r.
Qed.

Lemma choose_extends bc account_id w :
  trace w `prefix_of` trace (choose bc account_id w).2 ∧
  (next_obj w ≤ next_obj (choose bc account_id w).2)%nat ∧
  ∀ c, (choose bc account_id w).1 = Returned c →
       c = bc ∨ (next_obj w ≤ client_obj c < next_obj (choose bc account_id w).2)%nat.
Proof.
  rewrite choose_cases. destruct (_ && _).
  - set (w0 := (print _ w).2).
    assert (trace w0 = trace w ++
              [Print ("[Hub] Using cross-account client for " +:+ fmt account_id)])
      as Hw0 by done.
    assert (next_obj w0 = next_obj w) as Hn0 by done.
    destruct (broker_extends (fmt account_id) w0) as ([k Hk] & Hn & Hc).
    split; [|split].
    + eexists. rewrite Hk, Hw0, <- app_assoc. reflexivity.
    + lia.
    + intros c Hret. right. apply Hc in Hret. lia.
  - simpl. split; [by eexists|]. split; [lia|]. intros c [= <-]. by left.
Qed.

(** A dispatch with an alias, case by case on the client choice. *)
Lemma dispatch_cases bc agent user_request session_id w :
  truthy (agent !! "alias_id") = true →
  dispatch bc agent user_request session_id w =
  match choose bc (agent !! "account_id") w with
  | (Returned c, w1) =>
    (match bedrock_invoke_agent aws (trace w1) c
             (request_of agent user_request session_id) with
     | inl e => Raised (BotocoreError e)
     | inr response => assemble_response response
     end,
     mkWorld (trace w1 ++ [InvokeAgent c (request_of agent user_request session_id)])
             (next_obj w1))
  | (Raised e, w1) => (Raised e, w1)
  end.
Proof.
  intros Halias.
  destruct (choose bc (agent !! "account_id") w) as [[c|e] w1] eqn:Hchoose.
  - by apply dispatch_run.
  - by apply dispatch_choice_raised.
Qed.

Lemma missing_alias_run bc agent user_request session_id w :
  truthy (agent !! "alias_id") = false →
  dispatch bc agent user_request session_id w =
  (Returned ("Error: Missing alias_id for agent " +:+ fmt (agent !! "agent_id")), w).
Proof. intros Halias. unfold invoke_bedrock_agent. by rewrite Halias. Qed.

(** What one dispatch adds to the invocations, and where its client comes
    from. *)
Lemma dispatch_summary bc agent user_request session_id w :
  trace w `prefix_of` trace (dispatch bc agent user_request session_id w).2 ∧
  (next_obj w ≤ next_obj (dispatch bc agent user_request session_id w).2)%nat ∧
  ∃ added,
    invocations (trace (dispatch bc agent user_request session_id w).2) =
      invocations (trace w) ++ added ∧
    (added = [] ∨
     ∃ c, added = [(c, request_of agent user_request session_id)] ∧
          (choose bc (agent !! "account_id") w).1 = Returned c ∧
          (c = bc ∨
           (next_obj w ≤ client_obj c
            < next_obj (dispatch bc agent user_request session_id w).2)%nat)).
Proof.
  destruct (truthy (agent !! "alias_id")) eqn:Halias.
  - rewrite (dispatch_cases _ _ _ _ _ Halias).
    pose proof (choose_extends bc (agent !! "account_id") w) as ([k Hk] & Hn & Hc).
    pose proof (choose_invocations bc (agent !! "account_id") w) as Hinv.
    destruct (choose bc (agent !! "account_id") w) as [[c|e] w1]; simpl in *.
    + split; [eexists; rewrite Hk, <- app_assoc; reflexivity|]. split; [done|].
      eexists. rewrite invocations_app, Hinv. split; [done|]. right.
      exists c. split; [done|]. split; [done|]. by apply Hc.
    + split; [by eexists|]. split; [done|]. exists []. rewrite app_nil_r. by split; [|left].
  - rewrite (missing_alias_run _ _ _ _ _ Halias). simpl.
    split; [done|]. split; [done|]. exists []. rewrite app_nil_r. by split; [|left].
Qed.

(** ** Credential broker *)

(** X4. When the role is assumed and the identity of the new session is the
    requested account, the broker returns a [bedrock-agent-runtime] client
    made from that session: it carries the assumed credentials and the
    configured region, and so does the client that verified the identity;
    the ambient client is used for the assumption only. *)
Theorem acquire_success account_id w creds :
  sts_assume_role aws (before_assume account_id w) (broker_sts w)
                  (assume_role_request account_id) = inr creds →
  sts_get_caller_identity aws (before_identity account_id w creds)
                          (verifier w creds) = inr account_id →
  broker account_id w =
    (Returned (isolated_client w creds),
     mkWorld (before_identity account_id w creds ++
              [GetCallerIdentity (verifier w creds);
               Print ("[Hub] ✅ Identity: Account=" +:+ account_id);
               SessionClient (broker_session w creds) (isolated_client w creds)])
             (S (S (S (S (next_obj w))))))
  ∧ client_service (isolated_client w creds) = "bedrock-agent-runtime"
  ∧ client_creds (isolated_client w creds) = Explicit creds
  ∧ client_creds (verifier w creds) = Explicit creds
  ∧ client_region (isolated_client w creds) = REGION environ.
Proof.
  intros Hassume Hid. rewrite broker_run, Hassume, Hid, String.eqb_refl. done.
Qed.

(** X5. When the identity check itself is refused (an expired token, say),
    the broker raises that botocore error as it is; it has made no
    [bedrock-agent-runtime] client and no third STS call. *)
Theorem acquire_verification_error account_id w creds e :
  sts_assume_role aws (before_assume account_id w) (broker_sts w)
                  (assume_role_request account_id) = inr creds →
  sts_get_caller_identity aws (before_identity account_id w creds)
                          (verifier w creds) = inl e →
  broker account_id w =
    (Raised (BotocoreError e),
     mkWorld (trace w ++
              [Print ("[Hub] Assuming role for " +:+ account_id +:+ "...");
               Boto3Client (broker_sts w);
               AssumeRole (broker_sts w) (assume_role_request account_id);
               Boto3Session (broker_session w creds);
               SessionClient (broker_session w creds) (verifier w creds);
               GetCallerIdentity (verifier w creds)])
             (S (S (S (next_obj w))))).
Proof.
  intros Hassume Hid. rewrite broker_run, Hassume, Hid.
  unfold Hub.before_identity, Hub.before_assume. by rewrite <- !app_assoc.
Qed.

(** X6. Two acquisitions never hand out the same client object: a client
    returned by a later run of the broker differs from the client returned
    by an earlier one, whatever the accounts and whatever happened in
    between. *)
Theorem successive_acquisitions_distinct account1 account2 w c1 w1 w' c2 :
  broker account1 w = (Returned c1, w1) →
  (next_obj w1 ≤ next_obj w')%nat →
  (broker account2 w').1 = Returned c2 →
  client_obj c1 ≠ client_obj c2.
Proof.
  intros Hrun1 Hlater Hrun2.
  destruct (broker_extends account1 w) as (_ & _ & H1).
  destruct (broker_extends account2 w') as (_ & _ & H2).
  rewrite Hrun1 in H1. specialize (H1 c1 eq_refl). specialize (H2 c2 Hrun2).
  simpl in H1. lia.
Qed.

(** ** Dispatcher *)

(** X7. A dispatch never returns the empty text: what it returns is the
    missing-alias message, the assembled text when that is not empty, or
    "No response from agent.". *)
Theorem dispatch_never_returns_empty bc agent user_request session_id w :
  (invoke_bedrock_agent aws environ bc agent user_request session_id w).1 ≠ Returned "".
Proof.
  destruct (truthy (agent !! "alias_id")) eqn:Halias.
  - rewrite (dispatch_cases _ _ _ _ _ Halias).
    destruct (choose bc (agent !! "account_id") w) as [[c|e] w1]; [|done]. simpl.
    destruct (bedrock_invoke_agent _ _ _ _) as [e|response]; [done|].
    apply assemble_response_not_empty.
  - rewrite (missing_alias_run _ _ _ _ _ Halias). simpl. intros [=].
Qed.

(** X8. A dispatch invokes the agent at most once, whatever fails, and the
    one request it may send carries the record's [agent_id] and [alias_id]
    and the caller's session identifier and text as they were given. *)
Theorem dispatch_invokes_at_most_once bc agent user_request session_id w :
  invocations (trace (dispatch bc agent user_request session_id w).2) =
    invocations (trace w)
  ∨ ∃ c,
      invocations (trace (dispatch bc agent user_request session_id w).2) =
        invocations (trace w) ++
        [(c, mkInvokeAgentRequest (agent !! "agent_id") (agent !! "alias_id")
                                  session_id user_request)].
Proof.
  destruct (dispatch_summary bc agent user_request session_id w)
    as (_ & _ & added & -> & [->|(c & -> & _)]).
  - left. by rewrite app_nil_r.
  - right. by exists c.
Qed.

(** X9. When the agent runtime refuses the invocation (an unknown agent, an
    expired token, a malformed identifier), the dispatch raises that botocore
    error as it is: it is not turned into a text, and the invocation is not
    repeated. *)
Theorem dispatch_remote_error bc agent user_request session_id w c w1 e :
  truthy (agent !! "alias_id") = true →
  choose bc (agent !! "account_id") w = (Returned c, w1) →
  bedrock_invoke_agent aws (trace w1) c (request_of agent user_request session_id)
    = inl e →
  dispatch bc agent user_request session_id w =
    (Raised (BotocoreError e),
     mkWorld (trace w1 ++ [InvokeAgent c (request_of agent user_request session_id)])
             (next_obj w1))
  ∧ invocations (trace (dispatch bc agent user_request session_id w).2) =
    invocations (trace w) ++ [(c, request_of agent user_request session_id)].
Proof.
  intros Halias Hchoose Hreply.
  pose proof (choose_invocations bc (agent !! "account_id") w) as Hinv.
  rewrite Hchoose in Hinv. simpl in Hinv.
  rewrite (dispatch_run _ _ _ _ _ _ _ _ _ Halias Hchoose), Hreply. simpl.
  by rewrite invocations_app, Hinv.
Qed.


(** X11. Credentials and clients are not kept from one dispatch to the next:
    two dispatches in a row for records of other accounts assume the role
    twice, and when both reach the agent they do so on two different client
    objects. *)
Theorem successive_dispatches bc agent1 agent2 request1 session1 request2 session2 w
    account1 account2 :
  truthy (agent1 !! "alias_id") = true →
  truthy (agent2 !! "alias_id") = true →
  agent1 !! "account_id" = Some account1 → account1 ≠ "" → account1 ≠ LOCAL_ACCOUNT_ID →
  agent2 !! "account_id" = Some account2 → account2 ≠ "" → account2 ≠ LOCAL_ACCOUNT_ID →
  (client_obj bc < next_obj w)%nat →
  assume_role_calls
    (trace (dispatch bc agent2 request2 session2
              (dispatch bc agent1 request1 session1 w).2).2) =
    S (S (assume_role_calls (trace w)))
  ∧ ∀ c1 q1 c2 q2,
      invocations
        (trace (dispatch bc agent2 request2 session2
                  (dispatch bc agent1 request1 session1 w).2).2) =
        invocations (trace w) ++ [(c1, q1); (c2, q2)] →
      client_obj c1 ≠ client_obj c2 ∧ c1 ≠ bc ∧ c2 ≠ bc.
Proof.
  intros Halias1 Halias2 Hacc1 Hne1 Hloc1 Hacc2 Hne2 Hloc2 Hbc.
  assert (∀ agent request session account v,
    truthy (agent !! "alias_id") = true →
    agent !! "account_id" = Some account → account ≠ "" → account ≠ LOCAL_ACCOUNT_ID →
    (client_obj bc < next_obj v)%nat →
    assume_role_calls (trace (dispatch bc agent request session v).2) =
      S (assume_role_calls (trace v)) ∧
    (next_obj v ≤ next_obj (dispatch bc agent request session v).2)%nat ∧
    ∃ added,
      invocations (trace (dispatch bc agent request session v).2) =
        invocations (trace v) ++ added ∧
      (added = [] ∨
       ∃ c, added = [(c, request_of agent request session)] ∧
            (next_obj v ≤ client_obj c
             < next_obj (dispatch bc agent request session v).2)%nat)) as Hone.
  { intros agent request session account v Halias Hacc Hne Hloc Hv.
    destruct (dispatch_summary bc agent request session v)
      as (_ & Hn & added & Hinv & Hadded).
    split; [|split; [done|]].
    - rewrite (dispatch_cases _ _ _ _ _ Halias), Hacc,
        (choose_cross _ _ _ _ _ Hne Hloc).
      pose proof (broker_assume_role_calls aws environ account
        (print ("[Hub] Using cross-account client for " +:+ account) v).2) as Hcalls.
      destruct (broker account _) as [[c|e] v1]; simpl in *.
      + rewrite assume_role_calls_app, Hcalls, assume_role_calls_app.
        unfold assume_role_calls. simpl. lia.
      + rewrite Hcalls, assume_role_calls_app. unfold assume_role_calls. simpl. lia.
    - exists added. split; [done|].
      destruct Hadded as [->|(c & -> & Hret & Hc)]; [by left|right].
      exists c. split; [done|]. destruct Hc as [->|Hc]; [|done].
      rewrite Hacc, (choose_cross _ _ _ _ _ Hne Hloc) in Hret.
      destruct (broker_extends account
        (print ("[Hub] Using cross-account client for " +:+ account) v).2)
        as (_ & _ & Hfresh).
      apply Hfresh in Hret. simpl in Hret. lia. }
  destruct (Hone agent1 request1 session1 account1 w Halias1 Hacc1 Hne1 Hloc1 Hbc)
    as (Hcalls1 & Hn1 & added1 & Hinv1 & Hadded1).
  set (w1 := (dispatch bc agent1 request1 session1 w).2) in *.
  destruct (Hone agent2 request2 session2 account2 w1 Halias2 Hacc2 Hne2 Hloc2
              ltac:(lia))
    as (Hcalls2 & Hn2 & added2 & Hinv2 & Hadded2).
  split; [by rewrite Hcalls2, Hcalls1|].
  intros c1 q1 c2 q2. rewrite Hinv2, Hinv1, <- app_assoc.
  intros Heq%app_inv_head.
  destruct Hadded1 as [->|(d1 & -> & Hd1)]; destruct Hadded2 as [->|(d2 & -> & Hd2)];
    simplify_eq/=.
  split; [lia|]. split; intros ->; lia.
Qed.

End Runs.

End HubLaws.

Module FrontendLaws.
Import Frontend.
Local Open Scope js_scope.

Section Page.

Variable network : list Effect → Request → Settle.
Variable env : gmap string string.
Variable sessionId : string.

Local Abbreviation handleFileUpload := (handleFileUpload network env sessionId).
Local Abbreviation call_hub := (call_hub network env sessionId).
Local Abbreviation hub_request := (hub_request env sessionId).

Local Ltac no_member :=
  let H := fresh in
  intros H; repeat (apply elem_of_cons in H as [H|H]; [done|]); by apply elem_of_nil in H.

Lemma rethrow_throws (e : Thrown) (st : Store) :
  ∃ e', (match e with
         | ErrorObject "AbortError" _ => throw (ErrorObject "Error" TIMED_OUT)
         | _ => throw e
         end : Js unit) st = (Throw e', st).
Proof.
  destruct e as [name msg|]; [|by eexists].
  repeat match goal with
         | |- context [match ?x with _ => _ end] => is_var x; destruct x
         end; by eexists.
Qed.

Lemma call_hub_outcome s3Path st : ∃ c ms tail,
  call_hub s3Path st =
    (c, mkStore (mkUI (messages (ui st) ++ ms) (loading (ui st)) (uploading (ui st))
                      (fileInput (ui st)))
                (effects st ++ [SetTimeout TIMEOUT_MS; Fetch (hub_request s3Path)] ++ tail))
  ∧ last tail = Some ClearTimeout
  ∧ (Abort ∈ tail ↔
     misses_deadline (network (effects st ++ [SetTimeout TIMEOUT_MS]) (hub_request s3Path)))
  ∧ ((∃ e, c = Throw e ∧ ms = []) ∨
     ((c = Normal tt ∨ c = Return) ∧ ∃ text, ms = [mkMessage "assistant" text])).
Proof.
  destruct st as [[msgs l u f] effs].
  unfold Frontend.call_hub, seq, effect, try_catch, fetch_with_deadline. simpl.
  destruct (network _ _) as [t res|t error|] eqn:Hnet; simpl.
  - destruct (N.ltb_spec t TIMEOUT_MS) as [Ht|Ht]; simpl.
    + destruct (ok res); simpl.
      * unfold res_json. destruct (json res) as [data|]; simpl.
        -- exists (Normal tt), [mkMessage "assistant" (or_else (data !! "response") (data !! "error") "Processing complete but no response data")], [ClearTimeout].
           rewrite <- !app_assoc. simpl. split; [done|]. split; [done|].
           split; [|right; eauto].
           split; [no_member|lia].
        -- exists (Throw (ErrorObject "SyntaxError" "Unexpected token")), [], [ClearTimeout; ClearTimeout].
           rewrite <- !app_assoc, app_nil_r. simpl. split; [done|]. split; [done|].
           split; [|left; eauto].
           split; [no_member|lia].
      * destruct (status res =? 504)%nat; simpl.
        -- exists Return, [mkMessage "assistant" STILL_PROCESSING], [ClearTimeout].
           rewrite <- !app_assoc. simpl. split; [done|]. split; [done|].
           split; [|right; eauto].
           split; [no_member|lia].
        -- eexists (Throw _), [], [ClearTimeout; ClearTimeout].
           rewrite <- !app_assoc, app_nil_r. simpl. split; [done|]. split; [done|].
           split; [|left; eauto].
           split; [no_member|lia].
    + exists (Throw (ErrorObject "Error" TIMED_OUT)), [], [Abort; ClearTimeout].
      rewrite <- !app_assoc, app_nil_r. simpl. split; [done|]. split; [done|].
      split; [|left; eauto]. split; [lia|]. intros _. by left.
  - destruct (N.ltb_spec t TIMEOUT_MS) as [Ht|Ht]; simpl.
    + destruct (rethrow_throws error
        (mkStore (mkUI msgs l u f)
           ((((effs ++ [SetTimeout TIMEOUT_MS]) ++ [Fetch (hub_request s3Path)]) ++ [ClearTimeout]))))
        as [e' ->].
      exists (Throw e'), [], [ClearTimeout].
      rewrite <- !app_assoc, app_nil_r. simpl. split; [done|]. split; [done|].
      split; [|left; eauto].
      split; [no_member|lia].
    + exists (Throw (ErrorObject "Error" TIMED_OUT)), [], [Abort; ClearTimeout].
      rewrite <- !app_assoc, app_nil_r. simpl. split; [done|]. split; [done|].
      split; [|left; eauto]. split; [lia|]. intros _. by left.
  - exists (Throw (ErrorObject "Error" TIMED_OUT)), [], [Abort; ClearTimeout].
    rewrite <- !app_assoc, app_nil_r. simpl. split; [done|]. split; [done|].
    split; [|left; eauto]. split; [done|]. intros _. by left.
Qed.

(** The [catch] and [finally] of the handler, applied to a body that has
    completed. *)
Lemma finish_turn (c : Completion unit) (st2 st3 : Store) :
  c ≠ Pending →
  try_finally
    (try_catch (λ _, (c, st3))
       (λ err, setMessages (mkMessage "error"
          (match err with
           | ErrorObject _ message => message
           | NotAnError => "Upload failed"
           end))))
    (setUploading false ;;! setLoading false ;;! clearFileInput) st2 =
  match c with
  | Throw e =>
    (Normal tt,
     mkStore (mkUI (messages (ui st3) ++ [mkMessage "error" (Turn.shown e)])
                   false false (Turn.cleared (fileInput (ui st3))))
             (effects st3))
  | _ =>
    (c, mkStore (mkUI (messages (ui st3)) false false (Turn.cleared (fileInput (ui st3))))
                (effects st3))
  end.
Proof. by destruct c as [[]|e| |]. Qed.

(** A turn whose upload succeeded is the hub call, finished by the [catch]
    and the [finally]. *)
Lemma upload_then_hub file st urls :
  Turn.upload_succeeds network file st urls →
  handleFileUpload (Some file) st =
  try_finally
    (try_catch (λ _, call_hub (urls !! "s3Path") (Turn.uploaded file st urls))
       (λ err, setMessages (mkMessage "error"
          (match err with
           | ErrorObject _ message => message
           | NotAnError => "Upload failed"
           end))))
    (setUploading false ;;! setLoading false ;;! clearFileInput)
    (Turn.uploaded file st urls).
Proof.
  intros (t1 & res & t2 & uploadRes & Hurl & Hok & Hjson & Hput & Hokput).
  unfold Frontend.handleFileUpload.
  unfold seq at 1 2. simpl.
  unfold try_finally, try_catch, seq, fetch, res_json. simpl.
  rewrite Hurl, Hok, Hjson. simpl. rewrite Hput, Hokput. simpl.
  unfold Turn.uploaded, Turn.attachment. by rewrite <- !app_assoc.
Qed.


(** A turn either waits for ever on the upload, or reaches the hub call, or
    ends on an upload error without any timer or hub request. *)
Lemma upload_turn_outcome file st :
  (Turn.upload_stalls network file st ∧
   ∃ fetched,
     handleFileUpload (Some file) st =
     (Pending,
      mkStore (mkUI (messages (ui st) ++ [Turn.attachment file]) (loading (ui st)) true
                    (fileInput (ui st)))
              (effects st ++ fetched)) ∧
     Forall (λ e, ∃ r, e = Fetch r ∧ signal r = false) fetched)
  ∨ (∃ urls, Turn.upload_succeeds network file st urls)
  ∨ (¬ Turn.upload_stalls network file st ∧
     ∃ text fetched,
       handleFileUpload (Some file) st =
       (Normal tt,
        mkStore (mkUI (messages (ui st) ++ [Turn.attachment file; mkMessage "error" text])
                      false false (Turn.cleared (fileInput (ui st))))
                (effects st ++ fetched)) ∧
       Forall (λ e, ∃ r, e = Fetch r ∧ signal r = false) fetched).
Proof.
  destruct st as [[msgs l u f] effs].
  unfold Turn.upload_stalls, Turn.upload_succeeds, Frontend.handleFileUpload.
  unfold seq at 1 2. simpl.
  unfold try_finally, try_catch, seq, fetch, res_json. simpl.
  destruct (network effs _) as [t1 res|t1 error|] eqn:Hurl; simpl.
  - destruct (ok res) eqn:Hok; simpl.
    + destruct (json res) as [urls|] eqn:Hjson; simpl.
      * destruct (network (effs ++ _) _) as [t2 uploadRes|t2 error|] eqn:Hput; simpl.
        -- destruct (ok uploadRes) eqn:Hokput; simpl.
           ++ right. left. exists urls, t1, res, t2, uploadRes. done.
           ++ right. right. split.
              { intros [?|(? & ? & ? & ? & ? & ? & ?)]; simplify_eq; congruence. }
              eexists _, [_; _]. rewrite <- !app_assoc. split; [done|].
              repeat constructor; eexists; done.
        -- right. right. split.
           { intros [?|(? & ? & ? & ? & ? & ? & ?)]; simplify_eq; congruence. }
           eexists _, [_; _]. rewrite <- !app_assoc. split; [done|].
           repeat constructor; eexists; done.
        -- left. split; [right; by exists t1, res, urls|].
           eexists [_; _]. rewrite <- !app_assoc. split; [done|].
           repeat constructor; eexists; done.
      * right. right. split.
        { intros [?|(? & ? & ? & ? & ? & ? & ?)]; simplify_eq; congruence. }
        eexists _, [_]. rewrite <- ?app_assoc. split; [done|]. repeat constructor; eexists; done.
    + right. right. split.
      { intros [?|(? & ? & ? & ? & ? & ? & ?)]; simplify_eq; congruence. }
      eexists _, [_]. rewrite <- ?app_assoc. split; [done|]. repeat constructor; eexists; done.
  - right. right. split.
    { intros [?|(? & ? & ? & ? & ? & ? & ?)]; simplify_eq; congruence. }
    eexists _, [_]. rewrite <- ?app_assoc. split; [done|]. repeat constructor; eexists; done.
  - left. split; [by left|].
    eexists [_]. split; [done|]. repeat constructor; eexists; done.
Qed.


Lemma added_app st (st' : Store) (new : list Effect) :
  effects st' = effects st ++ new → Turn.added st st' = new.
Proof. intros H. unfold Turn.added. by rewrite H, drop_app_length. Qed.

(** A turn whose upload succeeded: what the hub call and the handler's
    [catch] and [finally] leave. *)
Lemma hub_turn_outcome file st urls :
  Turn.upload_succeeds network file st urls →
  ∃ c m tail,
    handleFileUpload (Some file) st =
    (c,
     mkStore (mkUI (messages (ui st) ++ [Turn.attachment file; m]) false false
                   (Turn.cleared (fileInput (ui st))))
             (effects st ++
              [Fetch (upload_url_request file);
               Fetch (put_request file (urls !! "uploadUrl"));
               SetTimeout TIMEOUT_MS;
               Fetch (hub_request (urls !! "s3Path"))] ++ tail))
    ∧ (c = Normal tt ∨ c = Return)
    ∧ (role m = "assistant" ∨ role m = "error")
    ∧ last tail = Some ClearTimeout
    ∧ (Abort ∈ tail ↔
       misses_deadline
         (network (effects (Turn.uploaded file st urls) ++ [SetTimeout TIMEOUT_MS])
                  (hub_request (urls !! "s3Path")))).
Proof.
  intros Hup. rewrite (upload_then_hub _ _ _ Hup).
  destruct (call_hub_outcome (urls !! "s3Path") (Turn.uploaded file st urls))
    as (c & ms & tail & Hrun & Hlast & Habort & Hc).
  rewrite Hrun, finish_turn;
    [|destruct Hc as [(e & -> & _)|[[-> | ->] _]]; done].
  destruct Hc as [(e & -> & ->)|[Hc (text & ->)]].
  - exists (Normal tt), (mkMessage "error" (Turn.shown e)), tail.
    split_and!; try done; auto.
    simpl. by rewrite app_nil_r, <- !app_assoc.
  - exists c, (mkMessage "assistant" text), tail.
    split_and!; try done; auto.
    destruct Hc as [-> | ->]; simpl; rewrite <- !app_assoc; reflexivity.
Qed.



(** X16. The hub request is aborted exactly when it has not settled by the
    time the timer fires; a hub that settles in time is never aborted. *)
Theorem abort_iff_deadline_missed s3Path st :
  Abort ∈ Turn.added st (call_hub s3Path st).2 ↔
  misses_deadline (network (effects st ++ [SetTimeout TIMEOUT_MS]) (hub_request s3Path)).
Proof.
  destruct (call_hub_outcome s3Path st) as (c & ms & tail & -> & _ & Habort & _).
  rewrite (added_app st _ ([SetTimeout TIMEOUT_MS; Fetch (hub_request s3Path)] ++ tail))
    by done.
  rewrite <- Habort, elem_of_app. split; [|by right].
  intros [H|H]; [|done]. exfalso. revert H. no_member.
Qed.

(** X17. An upload turn that completes has caught every error: it ends
    normally or by its early [return], never by an exception; the page is
    no longer loading or uploading, the file input is cleared, and exactly
    one message, from the assistant or an error, follows the attachment
    line. *)
Theorem upload_turn_completed file st :
  (handleFileUpload (Some file) st).1 ≠ Pending →
  ((handleFileUpload (Some file) st).1 = Normal tt ∨
   (handleFileUpload (Some file) st).1 = Return)
  ∧ loading (ui (handleFileUpload (Some file) st).2) = false
  ∧ uploading (ui (handleFileUpload (Some file) st).2) = false
  ∧ fileInput (ui (handleFileUpload (Some file) st).2) = Turn.cleared (fileInput (ui st))
  ∧ ∃ m, messages (ui (handleFileUpload (Some file) st).2) =
           messages (ui st) ++ [Turn.attachment file; m]
         ∧ (role m = "assistant" ∨ role m = "error").
Proof.
  destruct (upload_turn_outcome file st)
    as [(_ & fetched & -> & _)|[[urls Hup]|(_ & text & fetched & -> & _)]].
  - done.
  - destruct (hub_turn_outcome file st urls Hup) as (c & m & tail & -> & Hc & Hm & _).
    intros _. simpl. split_and!; try done. by exists m.
  - intros _. simpl. split_and!; auto. exists (mkMessage "error" text). auto.
Qed.


(** X19. The timer is started and the hub is called only after the upload
    succeeded: a turn that started the timer, or that sent a request with the
    abort signal, had its upload URL issued and its PUT accepted. *)
Theorem hub_only_after_upload file st :
  (SetTimeout TIMEOUT_MS ∈ Turn.added st (handleFileUpload (Some file) st).2 ∨
   ∃ r, Fetch r ∈ Turn.added st (handleFileUpload (Some file) st).2 ∧ signal r = true) →
  ∃ urls, Turn.upload_succeeds network file st urls.
Proof.
  destruct (upload_turn_outcome file st)
    as [(_ & fetched & -> & Hf)|[Hup|(_ & text & fetched & -> & Hf)]]; [|done|];
    rewrite (added_app st _ fetched) by done;
    rewrite Forall_forall in Hf;
    (intros [H|(r & H & Hr)]; apply Hf in H as (r' & ? & ?); simplify_eq; congruence).
Qed.


(** X20. An upload that is refused ends the turn with an error message and
    without any hub request: "Failed to get upload URL" when the upload-url
    route answers a status outside 200..299, after which nothing is sent to
    S3 either; "Failed to upload file to S3" when the PUT is answered so. *)
Theorem upload_refused file st :
  (∀ t res,
     network (effects st) (upload_url_request file) = Resolves t res →
     ok res = false →
     handleFileUpload (Some file) st =
     (Normal tt,
      mkStore (mkUI (messages (ui st) ++
                     [Turn.attachment file; mkMessage "error" "Failed to get upload URL"])
                    false false (Turn.cleared (fileInput (ui st))))
              (effects st ++ [Fetch (upload_url_request file)])))
  ∧ (∀ t res urls t2 uploadRes,
       network (effects st) (upload_url_request file) = Resolves t res →
       ok res = true → json res = Some urls →
       network (effects st ++ [Fetch (upload_url_request file)])
               (put_request file (urls !! "uploadUrl")) = Resolves t2 uploadRes →
       ok uploadRes = false →
       handleFileUpload (Some file) st =
       (Normal tt,
        mkStore (mkUI (messages (ui st) ++
                       [Turn.attachment file; mkMessage "error" "Failed to upload file to S3"])
                      false false (Turn.cleared (fileInput (ui st))))
                (effects st ++ [Fetch (upload_url_request file);
                                Fetch (put_request file (urls !! "uploadUrl"))]))).
Proof.
  split.
  - intros t res Hurl Hok. unfold Frontend.handleFileUpload.
    unfold seq at 1 2. simpl.
    unfold try_finally, try_catch, seq, fetch. simpl.
    rewrite Hurl, Hok. simpl. by rewrite <- !app_assoc.
  - intros t res urls t2 uploadRes Hurl Hok Hjson Hput Hokput.
    unfold Frontend.handleFileUpload.
    unfold seq at 1 2. simpl.
    unfold try_finally, try_catch, seq, fetch, res_json. simpl.
    rewrite Hurl, Hok, Hjson. simpl. rewrite Hput, Hokput. simpl.
    by rewrite <- !app_assoc.
Qed.

Lemma call_hub_answer s3Path st t hubRes data :
  network (effects st ++ [SetTimeout TIMEOUT_MS]) (hub_request s3Path) = Resolves t hubRes →
  (t < TIMEOUT_MS)%N → ok hubRes = true → json hubRes = Some data →
  call_hub s3Path st =
  (Normal tt,
   mkStore (mkUI (messages (ui st) ++
                  [mkMessage "assistant"
                     (or_else (data !! "response") (data !! "error")
                              "Processing complete but no response data")])
                 (loading (ui st)) (uploading (ui st)) (fileInput (ui st)))
           (effects st ++ [SetTimeout TIMEOUT_MS; Fetch (hub_request s3Path);
                           ClearTimeout])).
Proof.
  intros Hnet Ht Hok Hjson.
  unfold Frontend.call_hub, seq, effect, try_catch, fetch_with_deadline.
  simpl. rewrite Hnet. apply N.ltb_lt in Ht. rewrite Ht. simpl.
  rewrite Hok. simpl. unfold res_json. rewrite Hjson. simpl.
  by rewrite <- !app_assoc.
Qed.

Lemma call_hub_api_error s3Path st t hubRes :
  network (effects st ++ [SetTimeout TIMEOUT_MS]) (hub_request s3Path) = Resolves t hubRes →
  (t < TIMEOUT_MS)%N → ok hubRes = false → status hubRes ≠ 504 →
  call_hub s3Path st =
  (Throw (ErrorObject "Error"
            ("API error: " +:+ pretty (status hubRes) +:+ " - " +:+ text hubRes)),
   mkStore (ui st)
           (effects st ++ [SetTimeout TIMEOUT_MS; Fetch (hub_request s3Path);
                           ClearTimeout; ClearTimeout])).
Proof.
  intros Hnet Ht Hok Hstatus.
  unfold Frontend.call_hub, seq, effect, try_catch, fetch_with_deadline.
  simpl. rewrite Hnet. apply N.ltb_lt in Ht. rewrite Ht. simpl.
  rewrite Hok. simpl. apply Nat.eqb_neq in Hstatus. rewrite Hstatus. simpl.
  unfold throw. by rewrite <- !app_assoc.
Qed.

Lemma or_else_not_empty a b fallback : fallback ≠ "" → or_else a b fallback ≠ "".
Proof. unfold or_else. by destruct a as [[|]|], b as [[|]|]. Qed.

(** X21. When the upload succeeded and the hub answers in time with a status
    in 200..299 and a JSON body, the turn ends normally and shows, as the
    assistant, the body's [response] if it is not empty, else its [error] if
    that is not empty, else "Processing complete but no response data"; the
    text shown is never empty. *)
Theorem hub_answer_shown file st urls t hubRes data :
  Turn.upload_succeeds network file st urls →
  network (effects (Turn.uploaded file st urls) ++ [SetTimeout TIMEOUT_MS])
          (hub_request (urls !! "s3Path")) = Resolves t hubRes →
  (t < TIMEOUT_MS)%N → ok hubRes = true → json hubRes = Some data →
  handleFileUpload (Some file) st =
  (Normal tt,
   mkStore (mkUI (messages (ui st) ++
                  [Turn.attachment file;
                   mkMessage "assistant"
                     (or_else (data !! "response") (data !! "error")
                              "Processing complete but no response data")])
                 false false (Turn.cleared (fileInput (ui st))))
           (effects (Turn.uploaded file st urls) ++
            [SetTimeout TIMEOUT_MS; Fetch (hub_request (urls !! "s3Path")); ClearTimeout]))
  ∧ or_else (data !! "response") (data !! "error")
            "Processing complete but no response data" ≠ "".
Proof.
  intros Hup Hnet Ht Hok Hjson. split; [|by apply or_else_not_empty].
  rewrite (upload_then_hub _ _ _ Hup),
    (call_hub_answer _ _ _ _ _ Hnet Ht Hok Hjson), finish_turn by done.
  simpl. by rewrite <- !app_assoc.
Qed.

(** X22. When the upload succeeded and the hub answers in time with a status
    outside 200..299 other than 504, the turn shows the error
    "API error: <status> - <body text>". *)
Theorem hub_error_shown file st urls t hubRes :
  Turn.upload_succeeds network file st urls →
  network (effects (Turn.uploaded file st urls) ++ [SetTimeout TIMEOUT_MS])
          (hub_request (urls !! "s3Path")) = Resolves t hubRes →
  (t < TIMEOUT_MS)%N → ok hubRes = false → status hubRes ≠ 504 →
  handleFileUpload (Some file) st =
  (Normal tt,
   mkStore (mkUI (messages (ui st) ++
                  [Turn.attachment file;
                   mkMessage "error"
                     ("API error: " +:+ pretty (status hubRes) +:+ " - " +:+ text hubRes)])
                 false false (Turn.cleared (fileInput (ui st))))
           (effects (Turn.uploaded file st urls) ++
            [SetTimeout TIMEOUT_MS; Fetch (hub_request (urls !! "s3Path"));
             ClearTimeout; ClearTimeout])).
Proof.
  intros Hup Hnet Ht Hok Hstatus.
  rewrite (upload_then_hub _ _ _ Hup),
    (call_hub_api_error _ _ _ _ Hnet Ht Hok Hstatus), finish_turn by done.
  simpl. by rewrite <- !app_assoc.
Qed.

End Page.
End FrontendLaws.

Module UploadUrlLaws.
Import UploadUrl.


(** X12. Whatever the environment and the body, a reply that carries a URL
    carries the URL presigned for the PUT, lasting 1500 seconds, of the
    object ["sourceDocs/" + filename] in the configured bucket, and its
    [s3Path] names that same bucket and object; a missing file name or bucket
    is written "undefined". *)
Theorem reply_names_presigned_object env getSignedUrl filename contentType uploadUrl s3Path :
  POST env getSignedUrl (Body filename contentType) = Json uploadUrl s3Path →
  getSignedUrl (s3Client env)
    (mkPutObjectCommand (env !! "S3_BUCKET_NAME") ("sourceDocs/" +:+ template filename)
                        contentType) 1500 = inr uploadUrl
  ∧ s3Path = "s3://" +:+ template (env !! "S3_BUCKET_NAME") +:+ "/sourceDocs/" +:+
             template filename.
Proof.
  unfold POST. destruct (getSignedUrl _ _ _) as [error|url] eqn:Hsigned; [done|].
  intros [= <- <-]. by split.
Qed.



End UploadUrlLaws.

(* ================================================================== *)
(** * The further properties on concrete runs *)

Module MoreCases.
Import Hub Scenario MoreScenarios HubLaws.

(** ** Streams *)

Lemma assemble_ignores_other_events_witness :
  assemble_response noisy_stream = Returned "Hello, world" ∧
  assemble_response (mkInvokeAgentResponse None) = assemble_response (stream []).
Proof.
  split.
  - rewrite (assemble_ignores_other_events noisy_stream (stream ["Hel"; "lo, "; "world"])
               eq_refl).
    reflexivity.
  - exact (assemble_ignores_other_events (mkInvokeAgentResponse None) (stream []) eq_refl).
Defined.

Lemma assemble_rechunked_witness :
  assemble_response (stream ["Hel"; "lo, "; "world"]) =
  assemble_response (stream ["Hello, world"]).
Proof.
  exact (assemble_rechunked (stream ["Hel"; "lo, "; "world"]) ["Hel"; "lo, "; "world"]
           eq_refl).
Defined.

(** Cutting inside a character is another matter: the two bytes of "é"
    decode together and not apart. *)
Example split_character :
  Utf8.decode [Byte.xc3; Byte.xa9] = Some (String.string_of_list_byte [Byte.xc3; Byte.xa9]) ∧
  Utf8.decode [Byte.xc3] = None ∧ Utf8.decode [Byte.xa9] = None.
Proof. repeat split; reflexivity. Qed.

Lemma assemble_ascii_witness :
  ∃ text, assemble_response (stream ["Hel"; "lo, "; "world"]) = Returned text ∧ text ≠ "".
Proof.
  apply assemble_ascii. simpl.
  repeat (constructor; [repeat (constructor; [reflexivity|]); constructor|]).
  constructor.
Defined.

(** ** Credential broker *)

Lemma acquire_success_witness :
  (get_cross_account_bedrock_client aws0 ∅ "152864141302" w2).1 = Returned vessel_client.
Proof.
  rewrite (proj1 (acquire_success aws0 ∅ "152864141302" w2 target_creds eq_refl eq_refl)).
  reflexivity.
Defined.

Lemma acquire_verification_error_witness :
  (get_cross_account_bedrock_client aws_expired ∅ "152864141302" w2).1 =
  Raised (BotocoreError (mkBotoError "ExpiredToken" "The security token is expired")).
Proof.
  rewrite (acquire_verification_error aws_expired ∅ "152864141302" w2 target_creds _
             eq_refl eq_refl).
  reflexivity.
Defined.

Lemma successive_acquisitions_distinct_witness :
  client_obj vessel_client ≠
  client_obj (mkClient 8 "bedrock-agent-runtime" "us-east-1" (Explicit target_creds)).
Proof.
  exact (successive_acquisitions_distinct aws0 ∅ "152864141302" "152864141302" w2
           vessel_client _ (get_cross_account_bedrock_client aws0 ∅ "152864141302" w2).2
           _ eq_refl ltac:(simpl; lia) eq_refl).
Defined.

(** ** Dispatcher *)

Lemma dispatch_remote_error_witness :
  (invoke_bedrock_agent aws_not_found ∅ local_client local_agent "hi" "s1" w1).1 =
  Raised (BotocoreError (mkBotoError "ResourceNotFoundException" "Agent not found")).
Proof.
  rewrite (proj1 (dispatch_remote_error aws_not_found ∅ local_client local_agent "hi" "s1"
                    w1 local_client w3 _ eq_refl eq_refl eq_refl)).
  reflexivity.
Defined.


Lemma successive_dispatches_witness :
  assume_role_calls
    (trace (invoke_bedrock_agent aws0 ∅ local_client vessel_agent "again" "s1" w4).2) = 2.
Proof.
  exact (proj1 (successive_dispatches aws0 ∅ local_client vessel_agent vessel_agent
                  "hi" "s1" "again" "s1" w1 "152864141302" "152864141302"
                  eq_refl eq_refl eq_refl ltac:(discriminate) ltac:(discriminate)
                  eq_refl ltac:(discriminate) ltac:(discriminate) ltac:(simpl; lia))).
Defined.

(** ** Upload-url route *)

Lemma reply_names_presigned_object_witness :
  UploadUrl.POST ∅ presigner0 (UploadUrl.Body None None) =
    UploadUrl.Json "PUT https://undefined/sourceDocs/undefined?X-Amz-Expires=1500"
                   "s3://undefined/sourceDocs/undefined" ∧
  "s3://undefined/sourceDocs/undefined" =
    "s3://" +:+ UploadUrl.template ((∅ : gmap string string) !! "S3_BUCKET_NAME") +:+ "/sourceDocs/" +:+
    UploadUrl.template None.
Proof.
  split; [reflexivity|].
  exact (proj2 (UploadUrlLaws.reply_names_presigned_object ∅ presigner0 None None _ _
                  eq_refl)).
Defined.


(** ** Chat page *)

Import Frontend Turn.

Lemma upload_succeeds_report hub : upload_succeeds (network_of hub) report idle report_urls.
Proof. do 4 eexists. split_and!; reflexivity. Defined.

Lemma upload_turn_completed_witness :
  loading (ui (handleFileUpload forbidden env0 "session-1" (Some report) idle).2) = false ∧
  uploading (ui (handleFileUpload forbidden env0 "session-1" (Some report) idle).2) = false.
Proof.
  pose proof (FrontendLaws.upload_turn_completed forbidden env0 "session-1" report idle
                ltac:(discriminate)) as (_ & H1 & H2 & _).
  exact (conj H1 H2).
Defined.


Lemma hub_only_after_upload_witness :
  ∃ urls, upload_succeeds (network_of Never) report idle urls.
Proof.
  apply (FrontendLaws.hub_only_after_upload (network_of Never) env0 "session-1").
  left. vm_compute. do 2 right. left.
Defined.

Lemma upload_refused_witness :
  messages (ui (handleFileUpload forbidden env0 "session-1" (Some report) idle).2) =
  [attachment report; mkMessage "error" "Failed to get upload URL"].
Proof.
  rewrite (proj1 (FrontendLaws.upload_refused forbidden env0 "session-1" report idle)
             15%N (mkResponse 403 "Forbidden" None) eq_refl eq_refl).
  reflexivity.
Defined.

Lemma hub_answer_shown_witness :
  messages (ui (handleFileUpload (network_of hub_done) env0 "session-1"
                  (Some report) idle).2) =
  [attachment report; mkMessage "assistant" "done"].
Proof.
  rewrite (proj1 (FrontendLaws.hub_answer_shown (network_of hub_done) env0 "session-1"
                    report idle report_urls 30000%N
                    (mkResponse 200 "" (Some {[ "response" := "done" ]}))
                    {[ "response" := "done" ]}
                    (upload_succeeds_report hub_done) eq_refl eq_refl eq_refl eq_refl)).
  reflexivity.
Defined.

Lemma hub_error_shown_witness :
  messages (ui (handleFileUpload (network_of hub_broken) env0 "session-1"
                  (Some report) idle).2) =
  [attachment report; mkMessage "error" "API error: 500 - boom"].
Proof.
  rewrite (FrontendLaws.hub_error_shown (network_of hub_broken) env0 "session-1"
             report idle report_urls 2000%N (mkResponse 500 "boom" None)
             (upload_succeeds_report hub_broken) eq_refl eq_refl eq_refl
             ltac:(discriminate)).
  reflexivity.
Defined.

End MoreCases.
